(** * split-config.js.py: function extraction, classification and report

    A shallow embedding of [SmartLists/Configuration/split-config.js.py].
    The script reads a JavaScript file, finds the single-line function
    declarations with a regular expression, sorts them into ten named
    buckets by keywords contained in the function name, and prints a
    summary.

    Python [str] values are sequences of Unicode code points; they are
    modelled as lists of [N].  String literals of the script are ASCII and
    are written with [lit]. *)

From Stdlib Require Import String Ascii DecimalString.
From Stdlib Require Import List NArith Arith Bool Lia.
From Stdlib Require Import Permutation Sorted.
Import ListNotations.

Set Implicit Arguments.

(** ** Text *)

Definition str := list N.

(** An ASCII literal of the script as a [str]. *)
Definition lit (s : string) : str :=
  List.map N_of_ascii (list_ascii_of_string s).

Definition str_eqb (a b : str) : bool :=
  if list_eq_dec N.eq_dec a b then true else false.

(** Code points for which Python's [str.isspace] holds; the class [\s] of
    a [str] pattern and the characters removed by [str.strip()] are this
    same set. *)
Definition is_space (c : N) : bool :=
  ((9 <=? c) && (c <=? 13) || (28 <=? c) && (c <=? 32)
   || (c =? 133) || (c =? 160) || (c =? 5760)
   || (8192 <=? c) && (c <=? 8202)
   || (c =? 8232) || (c =? 8233) || (c =? 8239) || (c =? 8287)
   || (c =? 12288))%N.

(** [[a-zA-Z_]] *)
Definition is_ident_start (c : N) : bool :=
  ((97 <=? c) && (c <=? 122) || (65 <=? c) && (c <=? 90) || (c =? 95))%N.

(** [[a-zA-Z0-9_]] *)
Definition is_ident_char (c : N) : bool :=
  ((97 <=? c) && (c <=? 122) || (65 <=? c) && (c <=? 90)
   || (48 <=? c) && (c <=? 57) || (c =? 95))%N.

(** [[^)]] *)
Definition not_rparen (c : N) : bool := negb (c =? 41)%N.

(** [str.lower()] and [str.upper()] on ASCII letters; other code points
    below 128 are left alone.  The script lowers only names captured by
    [[a-zA-Z_][a-zA-Z0-9_]*] and uppers only its own category keys, so no
    code point above 127 reaches either function (see
    [find_functions_names_ascii]). *)
Definition lower_char (c : N) : N :=
  if ((65 <=? c) && (c <=? 90))%N then (c + 32)%N else c.

Definition upper_char (c : N) : N :=
  if ((97 <=? c) && (c <=? 122))%N then (c - 32)%N else c.

Definition lower (s : str) : str := List.map lower_char s.
Definition upper (s : str) : str := List.map upper_char s.

(** [s.startswith(p)], returning what follows the prefix. *)
Fixpoint strip_prefix (p s : str) : option str :=
  match p, s with
  | [], _ => Some s
  | _ :: _, [] => None
  | a :: p', b :: s' => if (a =? b)%N then strip_prefix p' s' else None
  end.

(** [needle in hay] for strings: substring containment. *)
Fixpoint contains (needle hay : str) : bool :=
  match strip_prefix needle hay with
  | Some _ => true
  | None => match hay with
            | [] => false
            | _ :: hay' => contains needle hay'
            end
  end.

(** [s.split(sep)] for a one-character separator: every occurrence
    separates, and the result always has at least one element. *)
Fixpoint split (sep : N) (s : str) : list str :=
  match s with
  | [] => [[]]
  | c :: s' =>
      if (c =? sep)%N then [] :: split sep s'
      else match split sep s' with
           | l :: ls => (c :: l) :: ls
           | [] => [[c]]
           end
  end.

Fixpoint lstrip (s : str) : str :=
  match s with
  | c :: s' => if is_space c then lstrip s' else s
  | [] => []
  end.

Definition rstrip (s : str) : str := rev (lstrip (rev s)).

(** [s.strip()] *)
Definition strip (s : str) : str := rstrip (lstrip s).

(** [enumerate(l, start)] *)
Fixpoint enumerate (A : Type) (start : nat) (l : list A) : list (nat * A) :=
  match l with
  | [] => []
  | x :: l' => (start, x) :: enumerate (S start) l'
  end.

(** Decimal rendering of a non-negative [int], as an f-string does. *)
Definition decimal (n : nat) : str :=
  lit (NilZero.string_of_uint (Nat.to_uint n)).

(** ** Regular expressions

    The fragment of Python's [re] syntax that [function_pattern] uses:
    character classes, literals, concatenation, greedy [?], greedy [*] and
    [+] over a character class, capturing groups and [^]. *)

Inductive regex : Type :=
| Bol                                   (* ^ *)
| Class (p : N -> bool)                 (* one character of a class *)
| Str (s : str)                         (* literal text *)
| Cat (r1 r2 : regex)
| Opt (r : regex)                       (* r? *)
| StarC (p : N -> bool)                 (* [p]* *)
| PlusC (p : N -> bool)                 (* [p]+ *)
| Group (n : nat) (r : regex).          (* n-th capturing group *)

(** Captured groups, most recently closed first. *)
Definition captures := list (nat * str).

(** [match.group(n)]; [None] when the group did not take part. *)
Fixpoint group (n : nat) (m : captures) : option str :=
  match m with
  | [] => None
  | (k, s) :: m' => if Nat.eqb k n then Some s else group n m'
  end.

(** Greedy repetition of a class with backtracking: the longest run is
    tried first, then shorter ones. *)
Fixpoint star (A : Type) (p : N -> bool) (s : str) (k : str -> option A)
  : option A :=
  match s with
  | c :: s' =>
      if p c
      then match star p s' k with
           | Some r => Some r
           | None => k s
           end
      else k s
  | [] => k []
  end.

(** The backtracking matcher in continuation-passing style.  [input] is
    the whole subject, [s] what is left of it, [c] the groups captured so
    far and [k] what remains to be matched. *)
Fixpoint exec (input : str) (r : regex) (s : str) (c : captures)
         (k : str -> captures -> option captures) : option captures :=
  match r with
  | Bol => if Nat.eqb (length s) (length input) then k s c else None
  | Class p =>
      match s with
      | x :: s' => if p x then k s' c else None
      | [] => None
      end
  | Str l =>
      match strip_prefix l s with
      | Some s' => k s' c
      | None => None
      end
  | Cat r1 r2 => exec input r1 s c (fun s' c' => exec input r2 s' c' k)
  | Opt r1 =>
      match exec input r1 s c k with
      | Some m => Some m
      | None => k s c
      end
  | StarC p => star p s (fun s' => k s' c)
  | PlusC p =>
      match s with
      | x :: s' => if p x then star p s' (fun s'' => k s'' c) else None
      | [] => None
      end
  | Group n r1 =>
      exec input r1 s c
           (fun s' c' => k s' ((n, firstn (length s - length s') s) :: c'))
  end.

(** [re.match(pattern, line)]: the pattern must match at the start of the
    line and may stop anywhere. *)
Definition re_match (pattern : regex) (line : str) : option captures :=
  exec line pattern line [] (fun _ c => Some c).

(** [function_pattern]; each line of the definition is one piece of the
    pattern string, in the order in which the string has them. *)
Definition function_pattern : regex :=
  Cat Bol                                                (* ^ *)
 (Cat (StarC is_space)                                   (* \s* *)
 (Cat (Opt (Group 1 (Cat (Str (lit "async"))             (* (async *)
                         (PlusC is_space))))             (*  \s+)? *)
 (Cat (Str (lit "function"))                             (* function *)
 (Cat (PlusC is_space)                                   (* \s+ *)
 (Cat (Group 2 (Cat (Class is_ident_start)               (* ([a-zA-Z_] *)
                    (StarC is_ident_char)))              (*  [a-zA-Z0-9_]* ) *)
 (Cat (StarC is_space)                                   (* \s* *)
 (Cat (Str (lit "("))                                    (* \( *)
 (Cat (StarC not_rparen)                                 (* [^)]* *)
 (Cat (Str (lit ")"))                                    (* \) *)
 (Cat (StarC is_space)                                   (* \s* *)
      (Str (lit "{")))))))))))).                         (* \{ *)

(** ** Exceptions *)

Inductive exn : Type :=
| FileNotFoundError
| PermissionError
| UnicodeDecodeError
| KeyError (key : string).

Inductive result (A : Type) : Type :=
| Ok (a : A)
| Raise (e : exn).

Arguments Ok {A} a.
Arguments Raise {A} e.

Definition bind (A B : Type) (m : result A) (f : A -> result B) : result B :=
  match m with
  | Ok a => f a
  | Raise e => Raise e
  end.

Notation "x <- m ;; f" := (bind m (fun x => f))
  (at level 61, m at next level, right associativity).

(** ** The file system

    What [open(filepath, 'r', encoding='utf-8')] followed by [f.read()]
    finds at a path: nothing, a file that may not be read, bytes that are
    not UTF-8, or text.  [content] is the text as [read()] returns it,
    that is, decoded and with line endings already translated to the
    newline character. *)

Inductive file : Type :=
| Missing
| Unreadable
| Undecodable
| Text (content : str).

Definition filesystem := str -> file.

Definition read_text (fs : filesystem) (filepath : str) : result str :=
  match fs filepath with
  | Missing => Raise FileNotFoundError
  | Unreadable => Raise PermissionError
  | Undecodable => Raise UnicodeDecodeError
  | Text content => Ok content
  end.

(** ** Function records and the extraction loop *)

Record FunctionRecord : Type := {
  name : str;
  line : nat;
  async : bool;
  line_content : str
}.

Definition newline : N := 10%N.

(** [bool(match.group(1))]: [None] and the empty string are false. *)
Definition truthy (g : option str) : bool :=
  match g with
  | Some (_ :: _) => true
  | _ => false
  end.

(** The body of the loop over [enumerate(lines, 1)].  Group 2 takes part
    in every match of [function_pattern] ([function_match_groups]), so
    the [None] case of [group 2] is never reached. *)
Definition find_step (functions : list FunctionRecord) (il : nat * str)
  : list FunctionRecord :=
  let '(i, l) := il in
  match re_match function_pattern l with
  | Some m =>
      let is_async := truthy (group 1 m) in
      let func_name := match group 2 m with Some s => s | None => [] end in
      functions ++ [ {| name := func_name; line := i; async := is_async;
                        line_content := strip l |} ]
  | None => functions
  end.

(** The first half of [analyze_file]: the list [functions]. *)
Definition find_functions (content : str) : list FunctionRecord :=
  let lines := split newline content in
  fold_left find_step (enumerate 1 lines) [].

(** ** Categories *)

(** The dict [categories]: keys in insertion order. *)
Definition dict := list (string * list FunctionRecord).

Definition initial_categories : dict :=
  [ ("core", []); ("formatters", []); ("schedules", []); ("sorts", []);
    ("rules", []); ("playlists", []); ("filters", []);
    ("bulk_actions", []); ("api", []); ("init", []) ]%string.

(** [categories[key].append(func)] *)
Fixpoint dict_append (key : string) (func : FunctionRecord) (d : dict)
  : result dict :=
  match d with
  | [] => Raise (KeyError key)
  | (k, funcs) :: d' =>
      if String.eqb k key then Ok ((k, funcs ++ [func]) :: d')
      else d'' <- dict_append key func d' ;; Ok ((k, funcs) :: d'')
  end.

(** [any(x in name for x in keywords)] *)
Definition any_in (keywords : list string) (name : str) : bool :=
  existsb (fun x => contains (lit x) name) keywords.

(** The if/elif chain of [analyze_file]: the key of the bucket to which
    the branch taken appends. *)
Definition category_of (func_name : str) : string :=
  let name := lower func_name in
  (if any_in ["format"; "generate"; "escape"; "convert"] name then
     "formatters"
   else if contains (lit "schedule") name then
     "schedules"
   else if contains (lit "sort") name then
     "sorts"
   else if any_in ["rule"; "field"; "operator"; "value"; "input"] name then
     "rules"
   else if any_in ["playlist"; "create"; "edit"; "clone"; "delete";
                   "refresh"; "enable"; "disable"] name then
     "playlists"
   else if any_in ["filter"; "search"; "apply"] name then
     "filters"
   else if contains (lit "bulk") name then
     "bulk_actions"
   else if any_in ["api"; "load"; "get"; "post"; "put"; "fetch"] name then
     "api"
   else if any_in ["init"; "setup"; "event"] name then
     "init"
   else
     "core")%string.

(** The loop [for func in functions]. *)
Fixpoint categorize (functions : list FunctionRecord) (categories : dict)
  : result dict :=
  match functions with
  | [] => Ok categories
  | func :: rest =>
      categories' <- dict_append (category_of (name func)) func categories ;;
      categorize rest categories'
  end.

Definition analyze_content (content : str)
  : result (dict * list FunctionRecord) :=
  let functions := find_functions content in
  categories <- categorize functions initial_categories ;;
  Ok (categories, functions).

Definition analyze_file (fs : filesystem) (filepath : str)
  : result (dict * list FunctionRecord) :=
  content <- read_text fs filepath ;;
  analyze_content content.

(** ** The report *)

(** What [print(s)] writes to standard output. *)
Definition print (s : str) : str := s ++ [newline].

(** ["=" * 80] *)
Definition rule80 : str := List.concat (repeat (lit "=") 80).

Definition print_func (func : FunctionRecord) : str :=
  let async_str := if async func then lit "async " else lit "" in
  print (lit "  " ++ async_str ++ name func
         ++ lit " (line " ++ decimal (line func) ++ lit ")").

Definition print_category (item : string * list FunctionRecord) : str :=
  let '(category, funcs) := item in
  match funcs with
  | [] => []
  | _ :: _ =>
      print ([newline] ++ upper (lit category) ++ lit " ("
             ++ decimal (length funcs) ++ lit " functions):")
      ++ flat_map print_func funcs
  end.

(** Everything [print_analysis] writes to standard output. *)
Definition print_analysis (categories : dict)
           (functions : list FunctionRecord) : str :=
  print rule80
  ++ print (lit "FUNCTION ANALYSIS")
  ++ print rule80
  ++ print ([newline] ++ lit "Total functions found: "
            ++ decimal (length functions) ++ [newline])
  ++ flat_map print_category categories.

(** ** The program *)

(** How a run ends: what was written to standard output, the exception
    that escaped (if any), and the exit status.  An exception that no
    handler catches ends the interpreter with status 1 after a traceback
    on standard error. *)
Record outcome : Type := {
  stdout : str;
  uncaught : option exn;
  exit_status : nat
}.

Definition choose_filepath (argv : list str) : str :=
  let filepath := lit "config.js" in
  if 1 <? length argv then nth 1 argv [] else filepath.

Definition main (argv : list str) (fs : filesystem) : outcome :=
  let filepath := choose_filepath argv in
  match analyze_file fs filepath with
  | Ok (categories, functions) =>
      {| stdout := print_analysis categories functions;
         uncaught := None; exit_status := 0 |}
  | Raise e =>
      {| stdout := []; uncaught := Some e; exit_status := 1 |}
  end.

(** ** The shape of a declaration line

    The pieces of a line that [function_pattern] accepts, named so that
    statements about lines can speak of them. *)

Record declaration : Type := {
  indent : str;              (* whitespace before the first keyword *)
  marker : option str;       (* whitespace after "async", when present *)
  gap_name : str;            (* whitespace after "function" *)
  ident : str;               (* the identifier *)
  gap_paren : str;           (* whitespace before "(" *)
  params : str;              (* text between "(" and the next ")" *)
  gap_brace : str;           (* whitespace before "{" *)
  trailer : str              (* whatever follows "{" *)
}.

(** Everything up to, but not including, the opening parenthesis. *)
Definition render_head (d : declaration) : str :=
  indent d
  ++ match marker d with
     | Some w => lit "async" ++ w
     | None => []
     end
  ++ lit "function" ++ gap_name d ++ ident d ++ gap_paren d.

Definition render (d : declaration) : str :=
  render_head d
  ++ lit "(" ++ params d ++ lit ")" ++ gap_brace d ++ lit "{" ++ trailer d.

Definition nonempty (s : str) : bool :=
  match s with
  | [] => false
  | _ :: _ => true
  end.

Definition is_identifier (s : str) : bool :=
  match s with
  | [] => false
  | c :: s' => is_ident_start c && forallb is_ident_char s'
  end.

Definition well_formed_head (d : declaration) : bool :=
  forallb is_space (indent d)
  && match marker d with
     | Some w => nonempty w && forallb is_space w
     | None => true
     end
  && nonempty (gap_name d) && forallb is_space (gap_name d)
  && is_identifier (ident d)
  && forallb is_space (gap_paren d).

Definition well_formed (d : declaration) : bool :=
  well_formed_head d
  && forallb not_rparen (params d)
  && forallb is_space (gap_brace d).

(** The groups of a match of a declaration line. *)
Definition groups_of (d : declaration) : captures :=
  (2, ident d)
  :: match marker d with
     | Some w => [(1, lit "async" ++ w)]
     | None => []
     end.

(** The language of a pattern, without groups and anchoring. *)
Fixpoint lang (r : regex) (w : str) : Prop :=
  match r with
  | Bol => w = []
  | Class p => exists c, w = [c] /\ p c = true
  | Str l => w = l
  | Cat r1 r2 => exists w1 w2, w = w1 ++ w2 /\ lang r1 w1 /\ lang r2 w2
  | Opt r1 => w = [] \/ lang r1 w
  | StarC p => forallb p w = true
  | PlusC p => nonempty w = true /\ forallb p w = true
  | Group _ r1 => lang r1 w
  end.

(** A greedy repetition of [p] cannot go past the start of [s]. *)
Definition stops (p : N -> bool) (s : str) : bool :=
  match s with
  | [] => true
  | x :: _ => negb (p x)
  end.

(** The record the loop appends for declaration [d] found on line [i]. *)
Definition record_of (i : nat) (d : declaration) : FunctionRecord :=
  {| name := ident d;
     line := i;
     async := match marker d with Some _ => true | None => false end;
     line_content := strip (render d) |}.


(** ** Buckets, as the specification describes them *)

(** The ten labels in their declaration order. *)
Definition category_order : list string :=
  [ "core"; "formatters"; "schedules"; "sorts"; "rules"; "playlists";
    "filters"; "bulk_actions"; "api"; "init" ]%string.

Definition in_category (key : string) (func : FunctionRecord) : bool :=
  String.eqb (category_of (name func)) key.

(** Each bucket holds, in extraction order, the records classified under
    its label. *)
Definition buckets_of (functions : list FunctionRecord) : dict :=
  List.map (fun key => (key, filter (in_category key) functions))
           category_order.

(** The priority table of the specification: rules 1 to 9 with their
    keyword sets; rule 10 is the fallback of [first_match]. *)
Definition priority_rules : list (string * list string) :=
  [ ("formatters", ["format"; "generate"; "escape"; "convert"]);
    ("schedules", ["schedule"]);
    ("sorts", ["sort"]);
    ("rules", ["rule"; "field"; "operator"; "value"; "input"]);
    ("playlists", ["playlist"; "create"; "edit"; "clone"; "delete";
                   "refresh"; "enable"; "disable"]);
    ("filters", ["filter"; "search"; "apply"]);
    ("bulk_actions", ["bulk"]);
    ("api", ["api"; "load"; "get"; "post"; "put"; "fetch"]);
    ("init", ["init"; "setup"; "event"]) ]%string.

(** First match wins; [core] when no rule matches. *)
Fixpoint first_match (rules : list (string * list string)) (name : str)
  : string :=
  match rules with
  | [] => "core"%string
  | (label, keywords) :: rest =>
      if any_in keywords name then label else first_match rest name
  end.

(** The partition property: the dict has the ten keys in declaration
    order, no record occurs twice in the buckets put end to end, the
    buckets together hold exactly the records of [functions], and each
    record is in the bucket of its label and in no other. *)
Definition partitions (categories : dict) (functions : list FunctionRecord)
  : Prop :=
  List.map fst categories = category_order
  /\ NoDup (concat (List.map snd categories))
  /\ Permutation (concat (List.map snd categories)) functions
  /\ (forall key funcs,
         In (key, funcs) categories ->
         funcs = filter (in_category key) functions)
  /\ (forall func,
         In func functions ->
         exists key funcs,
           In (key, funcs) categories /\ In func funcs
           /\ forall key' funcs',
               In (key', funcs') categories -> In func funcs' -> key' = key).

(** ** Sample inputs *)

Definition sample_content : str :=
  lit "function formatDate(x) {" ++ [newline]
  ++ [newline]
  ++ lit "async function fetchPlaylist() {" ++ [newline]
  ++ lit "  function bulkFormatList (a, b)  { return a; }".

Definition sample_fs : filesystem :=
  fun filepath =>
    if str_eqb filepath (lit "config.js") then Text sample_content
    else Missing.

(** Line 3 of scenario B and the record expected for it. *)
Definition fetch_line : str := lit "async function fetchPlaylist() {".

Definition fetch_record : FunctionRecord :=
  {| name := lit "fetchPlaylist"; line := 3; async := true;
     line_content := fetch_line |}.

Definition fetch_declaration : declaration :=
  {| indent := []; marker := Some (lit " "); gap_name := lit " ";
     ident := lit "fetchPlaylist"; gap_paren := []; params := [];
     gap_brace := lit " "; trailer := [] |}.

(** Declaration [d] with [extra] added at the end of its line. *)
Definition extend (d : declaration) (extra : str) : declaration :=
  {| indent := indent d; marker := marker d; gap_name := gap_name d;
     ident := ident d; gap_paren := gap_paren d; params := params d;
     gap_brace := gap_brace d; trailer := trailer d ++ extra |}.

(** A one-line body after the brace, with surrounding whitespace. *)
Definition one_line_body : str := lit "  function f() { return 1; }  ".

(** ** Nested parentheses *)

Definition lparen : N := 40%N.
Definition rparen : N := 41%N.

(** Every [)] of [s] closes an earlier [(], and [depth] parentheses more
    are closed than opened. *)
Fixpoint balanced_from (depth : nat) (s : str) : bool :=
  match s with
  | [] => Nat.eqb depth 0
  | c :: s' =>
      if (c =? lparen)%N then balanced_from (S depth) s'
      else if (c =? rparen)%N then
             match depth with
             | 0 => false
             | S depth' => balanced_from depth' s'
             end
           else balanced_from depth s'
  end.

Definition balanced (s : str) : bool := balanced_from 0 s.

Definition has_paren (s : str) : bool :=
  existsb (fun c => (c =? lparen) || (c =? rparen))%N s.

(** The specification's reading of the pattern: a declaration whose
    parameter list, enclosed by its matching parentheses, has a
    parenthesis inside is never matched. *)
Definition nested_parentheses_rejected : Prop :=
  forall d plist tail,
    well_formed_head d = true ->
    balanced plist = true ->
    has_paren plist = true ->
    re_match function_pattern
             (render_head d ++ lit "(" ++ plist ++ lit ")" ++ tail) = None.

(** The head [function f] and a callback with a default value. *)
Definition head_f : declaration :=
  {| indent := []; marker := None; gap_name := lit " "; ident := lit "f";
     gap_paren := []; params := []; gap_brace := []; trailer := [] |}.

Definition callback_default : str := lit "cb = function() {}".

(** A declaration head followed by a parameter list and what comes after
    its closing parenthesis. *)
Definition with_params (d : declaration) (ps ws rest : str) : declaration :=
  {| indent := indent d; marker := marker d; gap_name := gap_name d;
     ident := ident d; gap_paren := gap_paren d; params := ps;
     gap_brace := ws; trailer := rest |}.

(** ** The report, as the specification describes it: line by line *)

(** The text made of the given lines, each ended by a newline. *)
Definition unlines (ls : list str) : str :=
  flat_map (fun l => l ++ [newline]) ls.

Definition function_line (func : FunctionRecord) : str :=
  lit "  " ++ (if async func then lit "async " else []) ++ name func
  ++ lit " (line " ++ decimal (line func) ++ lit ")".

Definition nonempty_bucket (item : string * list FunctionRecord) : bool :=
  match snd item with
  | [] => false
  | _ :: _ => true
  end.

(** A blank line, the header, and one line per record. *)
Definition section_lines (item : string * list FunctionRecord) : list str :=
  [ [];
    upper (lit (fst item)) ++ lit " (" ++ decimal (length (snd item))
    ++ lit " functions):" ]
  ++ List.map function_line (snd item).

(** Banner, total, then the sections of the non-empty buckets in the
    declaration order of the ten labels. *)
Definition report_lines (functions : list FunctionRecord) : list str :=
  [ rule80; lit "FUNCTION ANALYSIS"; rule80;
    [];
    lit "Total functions found: " ++ decimal (length functions);
    [] ]
  ++ flat_map section_lines (filter nonempty_bucket (buckets_of functions)).

(** The report expected for [sample_content]. *)
Definition sample_report : list str :=
  [ rule80; lit "FUNCTION ANALYSIS"; rule80;
    [];
    lit "Total functions found: 3";
    [];
    [];
    lit "FORMATTERS (2 functions):";
    lit "  formatDate (line 1)";
    lit "  bulkFormatList (line 4)";
    [];
    lit "PLAYLISTS (1 functions):";
    lit "  async fetchPlaylist (line 3)" ].

(** A file system whose only file, [config.js], is empty. *)
Definition empty_fs : filesystem :=
  fun filepath =>
    if str_eqb filepath (lit "config.js") then Text [] else Missing.

(** ** Notions used to state further properties *)

(** Whether the loop appends a record for the line. *)
Definition is_match (l : str) : bool :=
  match re_match function_pattern l with
  | Some _ => true
  | None => false
  end.

(** [s.startswith(p)] *)
Definition starts_with (p s : str) : bool :=
  match strip_prefix p s with
  | Some _ => true
  | None => false
  end.

(** [s.count('\n')] *)
Definition count_newlines (s : str) : nat := count_occ N.eq_dec s newline.

(** The record with its line number moved down by [k] lines. *)
Definition shift_line (k : nat) (func : FunctionRecord) : FunctionRecord :=
  {| name := name func; line := k + line func; async := async func;
     line_content := line_content func |}.

(** Declaration [d] with another indentation. *)
Definition reindent (ws : str) (d : declaration) : declaration :=
  {| indent := ws; marker := marker d; gap_name := gap_name d;
     ident := ident d; gap_paren := gap_paren d; params := params d;
     gap_brace := gap_brace d; trailer := trailer d |}.

(** The keyword a declaration line starts with after its indentation. *)
Definition first_keyword (func : FunctionRecord) : str :=
  if async func then lit "async" else lit "function".

(** The keywords of the first branch of the if/elif chain. *)
Definition formatter_keywords : list string :=
  ["format"; "generate"; "escape"; "convert"]%string.

(** A file system with two files of different content: [config.js]
    holds [sample_content] and [other.js] holds [one_line_body]. *)
Definition two_files_fs : filesystem :=
  fun filepath =>
    if str_eqb filepath (lit "config.js") then Text sample_content
    else if str_eqb filepath (lit "other.js") then Text one_line_body
    else Missing.

(** The report expected for [one_line_body]. *)
Definition one_line_report : list str :=
  [ rule80; lit "FUNCTION ANALYSIS"; rule80;
    [];
    lit "Total functions found: 1";
    [];
    [];
    lit "CORE (1 functions):";
    lit "  f (line 1)" ].
(** * Properties *)

(** ** Text *)

Lemma strip_prefix_app (l s : str) : strip_prefix l (l ++ s) = Some s.
Proof.
  induction l as [|a l IH]; simpl.
  - destruct s; reflexivity.
  - rewrite N.eqb_refl. exact IH.
Qed.

Lemma strip_prefix_Some (l s s' : str) :
  strip_prefix l s = Some s' -> s = l ++ s'.
Proof.
  revert s. induction l as [|a l IH]; intros s H.
  - destruct s; simpl in H; inversion H; reflexivity.
  - destruct s as [|b s]; simpl in H; [discriminate|].
    destruct (N.eqb_spec a b) as [->|]; [|discriminate].
    simpl. f_equal. apply IH. exact H.
Qed.

Lemma firstn_consumed (a b : str) :
  firstn (length (a ++ b) - length b) (a ++ b) = a.
Proof.
  rewrite length_app, Nat.add_sub.
  rewrite firstn_app, Nat.sub_diag, firstn_all. simpl.
  apply app_nil_r.
Qed.

(** ** The matcher *)

Lemma star_sound (A : Type) (p : N -> bool) (s : str)
      (k : str -> option A) (r : A) :
  star p s k = Some r ->
  exists pre rest, s = pre ++ rest /\ forallb p pre = true /\ k rest = Some r.
Proof.
  induction s as [|c s IH]; simpl; intros H.
  - exists [], []. auto.
  - destruct (p c) eqn:Hc.
    + destruct (star p s k) as [r'|] eqn:Hs.
      * inversion H; subst r'.
        destruct (IH eq_refl) as (pre & rest & -> & Hp & Hk).
        exists (c :: pre), rest. simpl. rewrite Hc, Hp. auto.
      * exists [], (c :: s). auto.
    + exists [], (c :: s). auto.
Qed.

Lemma star_greedy (A : Type) (p : N -> bool) (pre rest : str)
      (k : str -> option A) (r : A) :
  forallb p pre = true -> stops p rest = true -> k rest = Some r ->
  star p (pre ++ rest) k = Some r.
Proof.
  intros Hp Hs Hk. induction pre as [|c pre IH]; simpl in *.
  - destruct rest as [|x rest]; simpl in *; [exact Hk|].
    destruct (p x); [discriminate | exact Hk].
  - apply andb_prop in Hp. destruct Hp as [Hc Hp].
    rewrite Hc, (IH Hp). reflexivity.
Qed.

Section Exec.

Variable input : str.

(** Whatever the matcher accepts starts with a word of the language. *)
Lemma exec_sound (r : regex) :
  forall s c k m,
    exec input r s c k = Some m ->
    exists pre rest c', s = pre ++ rest /\ lang r pre /\ k rest c' = Some m.
Proof.
  induction r as [|p|l|r1 IH1 r2 IH2|r1 IH1|p|p|n r1 IH1];
    intros s c k m H; simpl in H.
  - destruct (Nat.eqb _ _); [|discriminate].
    exists [], s, c. simpl. auto.
  - destruct s as [|x s]; [discriminate|].
    destruct (p x) eqn:Hx; [|discriminate].
    exists [x], s, c. simpl. eauto.
  - destruct (strip_prefix l s) as [s'|] eqn:Hl; [|discriminate].
    exists l, s', c. simpl. auto using strip_prefix_Some.
  - apply IH1 in H. destruct H as (w1 & rest1 & c1 & -> & L1 & H).
    apply IH2 in H. destruct H as (w2 & rest2 & c2 & -> & L2 & H).
    exists (w1 ++ w2), rest2, c2. rewrite app_assoc.
    simpl. split; [reflexivity|]. split; [|exact H].
    exists w1, w2. auto.
  - destruct (exec input r1 s c k) as [m'|] eqn:Hr.
    + inversion H; subst m'. apply IH1 in Hr.
      destruct Hr as (w & rest & c' & -> & L & Hk).
      exists w, rest, c'. simpl. auto.
    + exists [], s, c. simpl. auto.
  - apply star_sound in H. destruct H as (w & rest & -> & Hp & Hk).
    exists w, rest, c. simpl. auto.
  - destruct s as [|x s]; [discriminate|].
    destruct (p x) eqn:Hx; [|discriminate].
    apply star_sound in H. destruct H as (w & rest & -> & Hp & Hk).
    exists (x :: w), rest, c. simpl. rewrite Hx, Hp. auto.
  - apply IH1 in H. destruct H as (w & rest & c' & -> & L & Hk).
    eexists w, rest, _. simpl. eauto.
Qed.

Lemma exec_Str_app (l s : str) (c : captures) k :
  exec input (Str l) (l ++ s) c k = k s c.
Proof. simpl. rewrite strip_prefix_app. reflexivity. Qed.

Lemma exec_StarC_greedy (pre rest : str) (p : N -> bool) c k m :
  forallb p pre = true -> stops p rest = true -> k rest c = Some m ->
  exec input (StarC p) (pre ++ rest) c k = Some m.
Proof. intros. simpl. apply star_greedy; assumption. Qed.

Lemma exec_PlusC_greedy (pre rest : str) (p : N -> bool) c k m :
  nonempty pre = true -> forallb p pre = true -> stops p rest = true ->
  k rest c = Some m ->
  exec input (PlusC p) (pre ++ rest) c k = Some m.
Proof.
  intros Hn Hp Hs Hk. destruct pre as [|x pre]; [discriminate|].
  simpl in *. apply andb_prop in Hp. destruct Hp as [Hx Hp].
  rewrite Hx. apply star_greedy; assumption.
Qed.

Lemma exec_Opt_taken (r : regex) s c k m :
  exec input r s c k = Some m -> exec input (Opt r) s c k = Some m.
Proof. intros H. simpl. rewrite H. reflexivity. Qed.

Lemma exec_Opt_skipped (r : regex) s c k :
  exec input r s c k = None -> exec input (Opt r) s c k = k s c.
Proof. intros H. simpl. rewrite H. reflexivity. Qed.

Lemma exec_Cat (r1 r2 : regex) s c k :
  exec input (Cat r1 r2) s c k
  = exec input r1 s c (fun s' c' => exec input r2 s' c' k).
Proof. reflexivity. Qed.

Lemma exec_Group (n : nat) (r : regex) s c k :
  exec input (Group n r) s c k
  = exec input r s c
         (fun s' c' => k s' ((n, firstn (length s - length s') s) :: c')).
Proof. reflexivity. Qed.

Lemma exec_Bol_start c k :
  exec input Bol input c k = k input c.
Proof. simpl. rewrite Nat.eqb_refl. reflexivity. Qed.

Lemma exec_Class_cons (p : N -> bool) x s c k :
  p x = true -> exec input (Class p) (x :: s) c k = k s c.
Proof. intros H. simpl. rewrite H. reflexivity. Qed.

End Exec.

(** Facts about character classes are comparisons of code points. *)
Ltac classes :=
  unfold is_space, is_ident_start, is_ident_char, not_rparen,
         lower_char, upper_char in *;
  repeat rewrite ?orb_true_iff, ?andb_true_iff, ?orb_false_iff,
                 ?andb_false_iff, ?negb_true_iff, ?negb_false_iff,
                 ?N.leb_le, ?N.leb_gt, ?N.eqb_eq, ?N.eqb_neq in *;
  try lia.

Lemma is_ident_start_char (c : N) :
  is_ident_start c = true -> is_ident_char c = true.
Proof. classes. Qed.

Lemma ident_not_space (c : N) :
  is_ident_char c = true -> is_space c = false.
Proof. classes. Qed.

Lemma space_not_ident (c : N) :
  is_space c = true -> is_ident_char c = false.
Proof. classes. Qed.

Lemma stops_ident_gap (ws rest : str) :
  forallb is_space ws = true -> stops is_ident_char rest = true ->
  stops is_ident_char (ws ++ rest) = true.
Proof.
  destruct ws as [|x ws]; simpl; [auto|].
  intros H _. apply andb_prop in H. destruct H as [Hx _].
  rewrite (space_not_ident x Hx). reflexivity.
Qed.

(** From the keyword [function] to the opening brace; the same steps
    whether or not the line starts with [async]. *)
Ltac match_from_function_keyword c0 nm :=
  cbv beta; rewrite exec_Cat, exec_Str_app, exec_Cat;
  apply exec_PlusC_greedy;
  [ assumption | assumption
  | simpl; rewrite (ident_not_space c0);
    [reflexivity | apply is_ident_start_char; assumption]
  | ];
  rewrite exec_Cat, exec_Group, exec_Cat;
  change ((c0 :: nm) ++ ?x) with (c0 :: nm ++ x);
  rewrite exec_Class_cons by assumption;
  apply exec_StarC_greedy;
  [ assumption | apply stops_ident_gap; [assumption | reflexivity] | ];
  cbv beta; rewrite exec_Cat;
  apply exec_StarC_greedy; [assumption | reflexivity |];
  rewrite exec_Cat, exec_Str_app, exec_Cat;
  apply exec_StarC_greedy; [assumption | reflexivity |];
  rewrite exec_Cat, exec_Str_app, exec_Cat;
  apply exec_StarC_greedy; [assumption | reflexivity |];
  rewrite exec_Str_app.

(** A well-formed declaration line is matched, and the groups are its
    marker and its identifier. *)
Lemma function_match_render (d : declaration) :
  well_formed d = true ->
  re_match function_pattern (render d) = Some (groups_of d).
Proof.
  unfold re_match, function_pattern.
  rewrite exec_Cat, exec_Bol_start.
  generalize (render d) at 1. intros input.
  destruct d as [ws0 mk ws1 nm ws2 ps ws3 tr].
  unfold well_formed, well_formed_head, render, render_head, groups_of.
  cbn [indent marker gap_name ident gap_paren params gap_brace trailer].
  intros H.
  repeat (apply andb_prop in H; destruct H as [H ?]).
  destruct nm as [|c0 nm]; [discriminate|].
  match goal with Hn : is_identifier _ = true |- _ =>
    apply andb_prop in Hn; destruct Hn as [Hc0 Hnm] end.
  destruct mk as [w|]; cbv iota; rewrite ?app_nil_l;
    repeat rewrite <- app_assoc;
    rewrite exec_Cat;
    (apply exec_StarC_greedy; [assumption | reflexivity |]);
    rewrite exec_Cat.
  - match goal with Hw : nonempty w && _ = true |- _ =>
      apply andb_prop in Hw; destruct Hw as [Hw1 Hw2] end.
    apply exec_Opt_taken. rewrite exec_Group, exec_Cat, exec_Str_app.
    apply exec_PlusC_greedy; [assumption | assumption | reflexivity |].
    match_from_function_keyword c0 nm.
    f_equal. f_equal; [f_equal | f_equal; f_equal].
    + exact (firstn_consumed (c0 :: nm) _).
    + exact (firstn_consumed (lit "async" ++ w) _).
  - rewrite exec_Opt_skipped by reflexivity.
    match_from_function_keyword c0 nm.
    f_equal. f_equal. f_equal.
    exact (firstn_consumed (c0 :: nm) _).
Qed.

(** Only declaration lines are matched. *)
Lemma function_match_sound (l : str) (m : captures) :
  re_match function_pattern l = Some m ->
  exists d, well_formed d = true /\ l = render d.
Proof.
  unfold re_match. intros H. apply exec_sound in H.
  destruct H as (pre & rest & c' & Hl & L & _).
  cbn [lang function_pattern] in L.
  destruct L as (w0 & p1 & -> & -> & ws0 & p2 & -> & Hws0 & om & p3 & -> & Hom
                 & kw & p4 & -> & -> & ws1 & p5 & -> & [Hn1 Hws1]
                 & nm & p6 & -> & (n0 & nms & -> & (c0 & -> & Hc0) & Hnm)
                 & ws2 & p7 & -> & Hws2 & lp & p8 & -> & ->
                 & ps & p9 & -> & Hps & rp & p10 & -> & ->
                 & ws3 & lb & -> & Hws3 & ->).
  assert (Hwf : forall mk,
             match mk with
             | Some w => nonempty w && forallb is_space w
             | None => true
             end = true ->
             well_formed
               {| indent := ws0; marker := mk; gap_name := ws1;
                  ident := c0 :: nms; gap_paren := ws2; params := ps;
                  gap_brace := ws3; trailer := rest |} = true).
  { intros mk Hmk. unfold well_formed, well_formed_head.
    cbn [indent marker gap_name ident gap_paren params gap_brace trailer
         is_identifier].
    rewrite Hws0, Hmk, Hn1, Hws1, Hc0, Hnm, Hws2, Hps, Hws3. reflexivity. }
  destruct Hom as [-> | (a & w & -> & -> & Hn & Hw)].
  - eexists. split; [apply (Hwf None); reflexivity|].
    subst l. unfold render, render_head.
    cbn [indent marker gap_name ident gap_paren params gap_brace trailer].
    repeat rewrite <- app_assoc. reflexivity.
  - eexists. split; [apply (Hwf (Some w)); rewrite Hn, Hw; reflexivity|].
    subst l. unfold render, render_head.
    cbn [indent marker gap_name ident gap_paren params gap_brace trailer].
    repeat rewrite <- app_assoc. reflexivity.
Qed.

(** The groups of a match: group 2 is the identifier, group 1 takes part
    exactly when the line has the marker. *)
Lemma function_match_groups (l : str) (m : captures) :
  re_match function_pattern l = Some m ->
  exists d, well_formed d = true /\ l = render d /\ m = groups_of d.
Proof.
  intros H. destruct (function_match_sound _ H) as (d & Hwf & ->).
  exists d. repeat split; [assumption|].
  rewrite (function_match_render _ Hwf) in H. congruence.
Qed.

Lemma function_match_iff (l : str) (m : captures) :
  re_match function_pattern l = Some m <->
  exists d, well_formed d = true /\ l = render d /\ m = groups_of d.
Proof.
  split; [apply function_match_groups|].
  intros (d & Hwf & -> & ->). apply function_match_render. exact Hwf.
Qed.

(** ** The extraction loop *)

Lemma find_step_render (acc : list FunctionRecord) (i : nat) (d : declaration) :
  well_formed d = true ->
  find_step acc (i, render d) = acc ++ [record_of i d].
Proof.
  intros Hwf. unfold find_step.
  rewrite (function_match_render _ Hwf).
  unfold record_of, groups_of. destruct (marker d); reflexivity.
Qed.

Lemma find_step_cases (acc : list FunctionRecord) (i : nat) (l : str) :
  (re_match function_pattern l = None /\ find_step acc (i, l) = acc)
  \/ exists d, well_formed d = true /\ l = render d
               /\ find_step acc (i, l) = acc ++ [record_of i d].
Proof.
  destruct (re_match function_pattern l) as [m|] eqn:Hm.
  - right. destruct (function_match_sound _ Hm) as (d & Hwf & ->).
    exists d. auto using find_step_render.
  - left. unfold find_step. rewrite Hm. auto.
Qed.

Lemma find_step_acc (acc : list FunctionRecord) (il : nat * str) :
  find_step acc il = acc ++ find_step [] il.
Proof.
  destruct il as [i l]. unfold find_step.
  destruct (re_match function_pattern l); [reflexivity|].
  symmetry. apply app_nil_r.
Qed.

Lemma fold_find_step (ls : list (nat * str)) (acc : list FunctionRecord) :
  fold_left find_step ls acc = acc ++ flat_map (find_step []) ls.
Proof.
  revert acc. induction ls as [|il ls IH]; intros acc; simpl.
  - symmetry. apply app_nil_r.
  - rewrite IH, (find_step_acc acc), <- app_assoc. reflexivity.
Qed.

Lemma find_functions_flat_map (content : str) :
  find_functions content
  = flat_map (find_step []) (enumerate 1 (split newline content)).
Proof. unfold find_functions. apply fold_find_step. Qed.

Lemma in_enumerate (A : Type) (l : list A) (start j : nat) (x : A) :
  In (j, x) (enumerate start l) <->
  exists i, j = start + i /\ nth_error l i = Some x.
Proof.
  revert start. induction l as [|y l IH]; intros start; simpl.
  - split; [tauto|]. intros (i & _ & H). destruct i; discriminate.
  - rewrite IH. split.
    + intros [H | (i & -> & H)].
      * inversion H; subst. exists 0. split; [lia | reflexivity].
      * exists (S i). split; [lia | exact H].
    + intros (i & -> & H). destruct i as [|i]; simpl in H.
      * left. inversion H. f_equal. lia.
      * right. exists i. split; [lia | exact H].
Qed.

(** A record is extracted exactly for the lines that match, with the
    1-based position of the line. *)
Lemma in_find_functions (content : str) (r : FunctionRecord) :
  In r (find_functions content) <->
  exists i d, nth_error (split newline content) i = Some (render d)
              /\ well_formed d = true /\ r = record_of (S i) d.
Proof.
  rewrite find_functions_flat_map, in_flat_map. split.
  - intros ([j l] & Hin & Hr). apply in_enumerate in Hin.
    destruct Hin as (i & -> & Hi).
    destruct (find_step_cases [] (1 + i) l)
      as [[_ E] | (d & Hwf & -> & E)]; rewrite E in Hr; simpl in Hr.
    + contradiction.
    + destruct Hr as [<-|[]]. exists i, d. auto.
  - intros (i & d & Hi & Hwf & ->).
    exists (S i, render d). split.
    + apply in_enumerate. exists i. auto.
    + rewrite find_step_render by assumption. simpl. auto.
Qed.

Lemma find_lines_from (ls : list str) (start : nat) :
  Forall (fun r => start <= line r)
         (flat_map (find_step []) (enumerate start ls))
  /\ StronglySorted lt
       (map line (flat_map (find_step []) (enumerate start ls))).
Proof.
  revert start. induction ls as [|l ls IH]; intros start;
    cbn [flat_map enumerate map].
  - split; constructor.
  - destruct (IH (S start)) as [Hge Hsorted].
    assert (Hge' : Forall (fun r => start < line r)
                     (flat_map (find_step []) (enumerate (S start) ls))).
    { eapply Forall_impl; [|exact Hge]. simpl. intros; lia. }
    destruct (find_step_cases [] start l)
      as [[_ E] | (d & _ & _ & E)]; rewrite E; simpl.
    + split; [|exact Hsorted].
      eapply Forall_impl; [|exact Hge]. simpl. intros; lia.
    + split.
      * constructor; [simpl; lia|].
        eapply Forall_impl; [|exact Hge]. simpl. intros; lia.
      * constructor; [exact Hsorted|].
        apply Forall_map. exact Hge'.
Qed.

(** The records come out in file order. *)
Lemma find_functions_sorted (content : str) :
  StronglySorted lt (map line (find_functions content)).
Proof. rewrite find_functions_flat_map. apply find_lines_from. Qed.

Lemma StronglySorted_lt_NoDup (l : list nat) :
  StronglySorted lt l -> NoDup l.
Proof.
  induction 1 as [|x l Hs IH Hx]; constructor; [|exact IH].
  intros Hin. rewrite Forall_forall in Hx. specialize (Hx _ Hin). lia.
Qed.

Lemma NoDup_of_map (A B : Type) (f : A -> B) (l : list A) :
  NoDup (map f l) -> NoDup l.
Proof.
  induction l as [|x l IH]; simpl; intros H; constructor;
    inversion H; subst; auto.
  intros Hin. apply (in_map f) in Hin. contradiction.
Qed.

(** No record is extracted twice. *)
Lemma find_functions_NoDup (content : str) :
  NoDup (find_functions content).
Proof.
  apply (NoDup_of_map line), StronglySorted_lt_NoDup, find_functions_sorted.
Qed.

(** Every extracted name is an ASCII identifier, so lowering it touches
    ASCII letters only. *)
Lemma find_functions_names_ascii (content : str) (r : FunctionRecord) :
  In r (find_functions content) ->
  is_identifier (name r) = true
  /\ Forall (fun c => (c < 128)%N) (name r).
Proof.
  intros H. apply in_find_functions in H.
  destruct H as (i & d & _ & Hwf & ->). simpl.
  unfold well_formed, well_formed_head in Hwf.
  repeat (apply andb_prop in Hwf; destruct Hwf as [Hwf ?]).
  split; [assumption|].
  destruct (ident d) as [|c s]; [discriminate|].
  match goal with Hi : is_identifier _ = true |- _ =>
    simpl in Hi; apply andb_prop in Hi; destruct Hi as [Hc Hs] end.
  constructor.
  - clear - Hc. classes.
  - rewrite forallb_forall in Hs. apply Forall_forall. intros x Hx.
    specialize (Hs x Hx). clear - Hs. classes.
Qed.

(** ** Classification *)

Lemma category_of_in_order (func_name : str) :
  In (category_of func_name) category_order.
Proof.
  unfold category_of, category_order.
  repeat match goal with
         | |- context [if ?b then _ else _] => destruct b
         end; simpl; auto 12.
Qed.

Lemma category_order_NoDup : NoDup category_order.
Proof.
  unfold category_order.
  repeat (constructor; [simpl; intuition discriminate|]). constructor.
Qed.

Lemma category_of_first_match (func_name : str) :
  category_of func_name = first_match priority_rules (lower func_name).
Proof.
  unfold category_of, priority_rules. cbn [first_match].
  assert (one : forall kw s, any_in [kw] s = contains (lit kw) s).
  { intros. unfold any_in. simpl. apply orb_false_r. }
  rewrite !one. reflexivity.
Qed.

Lemma filter_snoc (A : Type) (p : A -> bool) (l : list A) (x : A) :
  filter p (l ++ [x]) = filter p l ++ (if p x then [x] else []).
Proof. rewrite filter_app. reflexivity. Qed.

(** Appending under the key of a record keeps the dict the list of
    buckets of what was classified so far. *)
Lemma dict_append_buckets (done : list FunctionRecord) (func : FunctionRecord) :
  dict_append (category_of (name func)) func (buckets_of done)
  = Ok (buckets_of (done ++ [func])).
Proof.
  pose proof (category_of_in_order (name func)) as Hin.
  unfold buckets_of. cbn [List.map category_order].
  rewrite !filter_snoc.
  assert (E : forall key, in_category key func
                          = String.eqb (category_of (name func)) key)
    by reflexivity.
  rewrite !E. clear E.
  unfold category_order in Hin. simpl in Hin.
  repeat (destruct Hin as [Hin|Hin];
          [rewrite <- Hin; simpl; rewrite ?app_nil_r; reflexivity|]).
  contradiction.
Qed.

Lemma categorize_buckets (functions done : list FunctionRecord) :
  categorize functions (buckets_of done) = Ok (buckets_of (done ++ functions)).
Proof.
  revert done. induction functions as [|func rest IH]; intros done;
    cbn [categorize].
  - rewrite app_nil_r. reflexivity.
  - rewrite dict_append_buckets. cbn [bind].
    rewrite IH, <- app_assoc. reflexivity.
Qed.

(** [analyze_file] never raises once the file has been read, and its
    result is determined by the extracted list. *)
Lemma analyze_content_buckets (content : str) :
  analyze_content content
  = Ok (buckets_of (find_functions content), find_functions content).
Proof.
  unfold analyze_content.
  change initial_categories with (buckets_of []).
  rewrite categorize_buckets. reflexivity.
Qed.

Lemma analyze_file_text (fs : filesystem) (filepath content : str) :
  fs filepath = Text content ->
  analyze_file fs filepath
  = Ok (buckets_of (find_functions content), find_functions content).
Proof.
  intros H. unfold analyze_file, read_text. rewrite H. simpl.
  apply analyze_content_buckets.
Qed.

Lemma buckets_keys (functions : list FunctionRecord) :
  List.map fst (buckets_of functions) = category_order.
Proof.
  unfold buckets_of. rewrite map_map. cbn [fst]. apply map_id.
Qed.

Lemma in_buckets (functions : list FunctionRecord) key funcs :
  In (key, funcs) (buckets_of functions) <->
  In key category_order /\ funcs = filter (in_category key) functions.
Proof.
  unfold buckets_of. rewrite in_map_iff. split.
  - intros (k & E & Hk). inversion E; subst. auto.
  - intros [Hk ->]. exists key. auto.
Qed.

Lemma in_bucket_iff (functions : list FunctionRecord) key funcs func :
  In (key, funcs) (buckets_of functions) ->
  (In func funcs <-> In func functions /\ key = category_of (name func)).
Proof.
  intros H. apply in_buckets in H. destruct H as [_ ->].
  rewrite filter_In. unfold in_category. rewrite String.eqb_eq.
  intuition congruence.
Qed.

Lemma concat_insert_one (A : Type) (keys : list string) (key0 : string)
      (g : string -> list A) (x : A) :
  NoDup keys -> In key0 keys ->
  Permutation
    (concat (List.map (fun k => if String.eqb key0 k then x :: g k else g k)
                      keys))
    (x :: concat (List.map g keys)).
Proof.
  induction keys as [|k keys IH]; intros Hnd Hin; [contradiction|].
  inversion Hnd as [|? ? Hk Hnd']; subst. simpl.
  destruct (String.eqb_spec key0 k) as [->|Hne].
  - simpl. apply Permutation_cons; [reflexivity|].
    apply Permutation_app_head.
    replace (List.map (fun k0 => if String.eqb k k0 then x :: g k0 else g k0)
                      keys) with (List.map g keys); [reflexivity|].
    apply map_ext_in. intros k' Hk'.
    destruct (String.eqb_spec k k') as [->|]; [contradiction | reflexivity].
  - destruct Hin as [->|Hin]; [congruence|].
    rewrite (IH Hnd' Hin). symmetry. apply Permutation_middle.
Qed.

(** The buckets, put end to end, are a rearrangement of the records. *)
Lemma buckets_partition (functions : list FunctionRecord) :
  Permutation (concat (List.map snd (buckets_of functions))) functions.
Proof.
  unfold buckets_of. rewrite map_map. cbn [snd].
  induction functions as [|func rest IH].
  - simpl. reflexivity.
  - etransitivity; [|apply Permutation_cons; [reflexivity | exact IH]].
    etransitivity;
      [|apply (concat_insert_one (category_of (name func))
                 (fun k => filter (in_category k) rest) func
                 category_order_NoDup (category_of_in_order _))].
    apply Permutation_refl'. reflexivity.
Qed.

Lemma first_match_at (before after : list (string * list string))
      (label : string) (keywords : list string) (name : str) :
  (forall l k, In (l, k) before -> any_in k name = false) ->
  any_in keywords name = true ->
  first_match (before ++ (label, keywords) :: after) name = label.
Proof.
  intros Hb Hk. induction before as [|[l k] before IH]; simpl.
  - rewrite Hk. reflexivity.
  - rewrite (Hb l k) by (left; reflexivity).
    apply IH. intros l' k' H. apply (Hb l' k'). right. exact H.
Qed.

Lemma first_match_none (rules : list (string * list string)) (name : str) :
  (forall l k, In (l, k) rules -> any_in k name = false) ->
  first_match rules name = "core"%string.
Proof.
  induction rules as [|[l k] rules IH]; intros H; simpl; [reflexivity|].
  rewrite (H l k) by (left; reflexivity).
  apply IH. intros l' k' H'. apply (H l' k'). right. exact H'.
Qed.

(** ** One record per line *)

Lemma NoDup_map_inj_in (A B : Type) (f : A -> B) (l : list A) (x y : A) :
  NoDup (List.map f l) -> In x l -> In y l -> f x = f y -> x = y.
Proof.
  induction l as [|a l IH]; simpl; intros Hnd Hx Hy E; [contradiction|].
  inversion Hnd as [|? ? Ha Hnd']; subst.
  destruct Hx as [->|Hx], Hy as [->|Hy]; auto.
  - exfalso. apply Ha. rewrite E. apply in_map. exact Hy.
  - exfalso. apply Ha. rewrite <- E. apply in_map. exact Hx.
Qed.

Lemma find_functions_line_unique (content : str) (r r' : FunctionRecord) :
  In r (find_functions content) -> In r' (find_functions content) ->
  line r = line r' -> r = r'.
Proof.
  apply NoDup_map_inj_in, StronglySorted_lt_NoDup, find_functions_sorted.
Qed.

(** ** Text after the brace *)

Lemma render_extend (d : declaration) (extra : str) :
  render (extend d extra) = render d ++ extra.
Proof.
  unfold render, render_head, extend.
  cbn [indent marker gap_name ident gap_paren params gap_brace trailer].
  repeat rewrite <- app_assoc. reflexivity.
Qed.

Lemma function_match_prefix (l extra : str) (m : captures) :
  re_match function_pattern l = Some m ->
  re_match function_pattern (l ++ extra) = Some m.
Proof.
  intros H. apply function_match_groups in H.
  destruct H as (d & Hwf & -> & ->).
  rewrite <- render_extend.
  apply (function_match_render (extend d extra)). exact Hwf.
Qed.

(** ** The parameter list *)

Lemma forallb_impl (p q : N -> bool) (l : str) :
  (forall c, p c = true -> q c = true) ->
  forallb p l = true -> forallb q l = true.
Proof.
  intros Hpq. induction l as [|c l IH]; simpl; [auto|].
  intros H. apply andb_prop in H. destruct H as [Hc Hl].
  rewrite (Hpq c Hc), (IH Hl). reflexivity.
Qed.

Lemma forallb_differs_not_in (x : N) (l : str) :
  forallb (fun c => negb (c =? x)%N) l = true -> ~ In x l.
Proof.
  rewrite forallb_forall. intros H Hin. specialize (H x Hin).
  rewrite N.eqb_refl in H. discriminate.
Qed.

Lemma split_at_first (x : N) (a a' b b' : str) :
  ~ In x a -> ~ In x a' -> a ++ x :: b = a' ++ x :: b' -> a = a' /\ b = b'.
Proof.
  revert a'. induction a as [|c a IH]; intros [|c' a'] Ha Ha' E;
    simpl in *.
  - inversion E. auto.
  - inversion E; subst. tauto.
  - inversion E; subst. tauto.
  - inversion E; subst. destruct (IH a') as [-> ->]; auto.
Qed.

Lemma space_not_lparen (c : N) :
  is_space c = true -> negb (c =? lparen)%N = true.
Proof. unfold lparen. classes. Qed.

Lemma ident_not_lparen (c : N) :
  is_ident_char c = true -> negb (c =? lparen)%N = true.
Proof. unfold lparen. classes. Qed.

(** No opening parenthesis occurs before the one of the parameter list. *)
Lemma render_head_no_lparen (d : declaration) :
  well_formed_head d = true -> ~ In lparen (render_head d).
Proof.
  intros H. apply forallb_differs_not_in.
  unfold well_formed_head in H.
  repeat (apply andb_prop in H; destruct H as [H ?]).
  unfold render_head. rewrite !forallb_app.
  repeat (apply andb_true_intro; split);
    try reflexivity;
    try (eapply forallb_impl; [apply space_not_lparen | assumption]).
  - destruct (marker d) as [w|]; [|reflexivity].
    match goal with Hw : nonempty w && _ = true |- _ =>
      apply andb_prop in Hw; destruct Hw as [_ Hw] end.
    rewrite forallb_app. apply andb_true_intro. split; [reflexivity|].
    eapply forallb_impl; [apply space_not_lparen | assumption].
  - destruct (ident d) as [|c s]; [discriminate|].
    match goal with Hi : is_identifier _ = true |- _ =>
      simpl in Hi; apply andb_prop in Hi; destruct Hi as [Hc Hs] end.
    simpl. apply andb_true_intro. split.
    + apply ident_not_lparen, is_ident_start_char, Hc.
    + eapply forallb_impl; [apply ident_not_lparen | assumption].
Qed.

Lemma not_rparen_not_in (s : str) :
  forallb not_rparen s = true -> ~ In rparen s.
Proof. apply forallb_differs_not_in. Qed.

(** ** The report *)

Lemma unlines_app (a b : list str) : unlines (a ++ b) = unlines a ++ unlines b.
Proof. unfold unlines. apply flat_map_app. Qed.

Lemma print_funcs_lines (funcs : list FunctionRecord) :
  flat_map print_func funcs = unlines (List.map function_line funcs).
Proof.
  induction funcs as [|func funcs IH]; [reflexivity|].
  cbn [flat_map List.map unlines]. fold (unlines (List.map function_line funcs)).
  rewrite IH. reflexivity.
Qed.

Lemma print_category_lines (item : string * list FunctionRecord) :
  print_category item
  = if nonempty_bucket item then unlines (section_lines item) else [].
Proof.
  destruct item as [key [|func funcs]]; [reflexivity|].
  unfold print_category, nonempty_bucket, section_lines. cbn [fst snd].
  rewrite unlines_app, print_funcs_lines.
  f_equal. unfold print, unlines. cbn [flat_map].
  rewrite app_nil_r. reflexivity.
Qed.

Lemma print_categories_lines (categories : dict) :
  flat_map print_category categories
  = unlines (flat_map section_lines (filter nonempty_bucket categories)).
Proof.
  induction categories as [|item categories IH]; [reflexivity|].
  cbn [flat_map filter]. rewrite IH, print_category_lines.
  destruct (nonempty_bucket item); [|reflexivity].
  cbn [flat_map]. rewrite unlines_app. reflexivity.
Qed.

Lemma print_analysis_lines (functions : list FunctionRecord) :
  print_analysis (buckets_of functions) functions
  = unlines (report_lines functions).
Proof.
  unfold print_analysis, report_lines.
  rewrite unlines_app, print_categories_lines.
  rewrite !app_assoc. f_equal.
Qed.

(** ** Scenarios of the specification *)

(** Scenario A: a plain declaration on line 10. *)
Example scenario_formatDate :
  find_step [] (10, lit "function formatDate(x) {")
  = [ {| name := lit "formatDate"; line := 10; async := false;
         line_content := lit "function formatDate(x) {" |} ]
  /\ category_of (lit "formatDate") = "formatters"%string.
Proof. split; reflexivity. Qed.

(** Scenario D: a declaration whose parameters run over two lines. *)
Example scenario_multi_line :
  find_functions (lit "function f(a," ++ [newline] ++ lit "           b) {")
  = [].
Proof. reflexivity. Qed.

(** * The claims *)

(** C1.  Whatever text the file holds, [analyze_file] returns, and every
    extracted record lies in exactly one of the ten buckets: the dict has
    the ten keys, each record is in the bucket of its label and in no
    other, and the buckets put end to end are a rearrangement of the
    extracted list without repetition. *)
Theorem analyze_file_partitions (fs : filesystem) (filepath content : str) :
  fs filepath = Text content ->
  exists categories,
    analyze_file fs filepath = Ok (categories, find_functions content)
    /\ partitions categories (find_functions content).
Proof.
  intros Hfs. exists (buckets_of (find_functions content)).
  split; [apply analyze_file_text; exact Hfs|].
  set (functions := find_functions content).
  assert (Hperm := buckets_partition functions).
  unfold partitions. split; [|split; [|split; [|split]]].
  - apply buckets_keys.
  - eapply Permutation_NoDup; [symmetry; exact Hperm|].
    apply find_functions_NoDup.
  - exact Hperm.
  - intros key funcs H. apply in_buckets in H. tauto.
  - intros func Hin.
    exists (category_of (name func)),
           (filter (in_category (category_of (name func))) functions).
    split; [|split].
    + apply in_buckets. auto using category_of_in_order.
    + apply filter_In. split; [exact Hin|].
      unfold in_category. apply String.eqb_refl.
    + intros key' funcs' H' Hin'.
      apply (in_bucket_iff func) in H'. tauto.
Qed.

Lemma analyze_file_partitions_witness :
  sample_fs (lit "config.js") = Text sample_content
  /\ exists categories,
      analyze_file sample_fs (lit "config.js")
      = Ok (categories, find_functions sample_content)
      /\ partitions categories (find_functions sample_content).
Proof.
  split; [reflexivity|].
  apply (analyze_file_partitions sample_fs (lit "config.js")).
  reflexivity.
Defined.

(** C3.  The if/elif chain of [analyze_file] is the priority table of the
    specification read from the top on the lowered name: the label
    returned is that of the first rule one of whose keywords the lowered
    name contains, whatever later rules would say, and [core] when no rule
    applies.  A name that contains both "format" and "bulk", such as
    "bulkFormatList", is therefore labelled [formatters]. *)
Theorem category_of_priority_order :
  (forall func_name,
      category_of func_name = first_match priority_rules (lower func_name))
  /\ List.map fst priority_rules
     = [ "formatters"; "schedules"; "sorts"; "rules"; "playlists";
         "filters"; "bulk_actions"; "api"; "init" ]%string
  /\ (forall func_name before label keywords after,
         priority_rules = before ++ (label, keywords) :: after ->
         (forall l k, In (l, k) before -> any_in k (lower func_name) = false) ->
         any_in keywords (lower func_name) = true ->
         category_of func_name = label)
  /\ (forall func_name,
         (forall l k, In (l, k) priority_rules ->
                      any_in k (lower func_name) = false) ->
         category_of func_name = "core"%string)
  /\ (forall func_name,
         contains (lit "format") (lower func_name) = true ->
         contains (lit "bulk") (lower func_name) = true ->
         category_of func_name = "formatters"%string)
  /\ category_of (lit "bulkFormatList") = "formatters"%string.
Proof.
  split; [exact category_of_first_match|].
  split; [reflexivity|].
  split; [|split; [|split; [|reflexivity]]].
  - intros func_name before label keywords after E Hb Hk.
    rewrite category_of_first_match, E. apply first_match_at; assumption.
  - intros func_name H. rewrite category_of_first_match.
    apply first_match_none. exact H.
  - intros func_name Hf _. unfold category_of, any_in. cbn [existsb].
    rewrite Hf. reflexivity.
Qed.

Lemma category_of_priority_order_witness :
  contains (lit "format") (lower (lit "bulkFormatList")) = true
  /\ contains (lit "bulk") (lower (lit "bulkFormatList")) = true
  /\ category_of (lit "bulkFormatList") = "formatters"%string.
Proof.
  split; [reflexivity|]. split; [reflexivity|].
  destruct category_of_priority_order as (_ & _ & _ & _ & H & _).
  apply (H (lit "bulkFormatList")); reflexivity.
Defined.

(** C5.  For every file text, every line of the required shape (leading
    whitespace, optional [async] marker, [function], identifier,
    parameter list in parentheses, opening brace) yields one record: its
    name is the identifier of the line, its line number the 1-based
    position of the line, its flag set exactly when the marker is there;
    and the records are listed by strictly ascending line number. *)
Theorem extractor_recovers_declarations
        (fs : filesystem) (filepath content : str) :
  fs filepath = Text content ->
  exists categories functions,
    analyze_file fs filepath = Ok (categories, functions)
    /\ StronglySorted lt (List.map line functions)
    /\ forall i d,
        nth_error (split newline content) i = Some (render d) ->
        well_formed d = true ->
        exists func,
          In func functions
          /\ name func = ident d
          /\ line func = S i
          /\ (async func = true <-> marker d <> None)
          /\ forall other,
              In other functions -> line other = S i -> other = func.
Proof.
  intros Hfs. eexists _, _.
  split; [apply analyze_file_text; exact Hfs|].
  split; [apply find_functions_sorted|].
  intros i d Hi Hwf.
  assert (Hin : In (record_of (S i) d) (find_functions content))
    by (apply in_find_functions; eauto).
  exists (record_of (S i) d).
  split; [exact Hin|]. split; [reflexivity|]. split; [reflexivity|].
  split.
  - simpl. destruct (marker d); split; congruence.
  - intros other Ho Hl.
    apply (find_functions_line_unique content); assumption.
Qed.

Lemma extractor_recovers_declarations_witness :
  sample_fs (lit "config.js") = Text sample_content
  /\ nth_error (split newline sample_content) 2
     = Some (render fetch_declaration)
  /\ well_formed fetch_declaration = true
  /\ exists categories functions,
      analyze_file sample_fs (lit "config.js") = Ok (categories, functions)
      /\ exists func,
          In func functions /\ name func = lit "fetchPlaylist"
          /\ line func = 3 /\ (async func = true <-> Some (lit " ") <> None).
Proof.
  split; [reflexivity|]. split; [reflexivity|]. split; [reflexivity|].
  destruct (extractor_recovers_declarations
              sample_fs (lit "config.js") eq_refl)
    as (categories & functions & Ha & _ & H).
  exists categories, functions. split; [exact Ha|].
  destruct (H 2 fetch_declaration eq_refl eq_refl)
    as (func & Hin & Hn & Hl & Has & _).
  exists func. auto.
Defined.

(** C4.  When line 3 of the file is [async function fetchPlaylist() {],
    the record with name "fetchPlaylist", line 3 and the flag set is
    extracted, it is the only record of that line, and it is put in the
    bucket [playlists] and not in [api], although its name contains
    "fetch": the rule for [playlists] comes first. *)
Theorem fetchPlaylist_in_playlists (fs : filesystem) (filepath content : str) :
  fs filepath = Text content ->
  nth_error (split newline content) 2 = Some fetch_line ->
  exists categories functions,
    analyze_file fs filepath = Ok (categories, functions)
    /\ In fetch_record functions
    /\ (forall func, In func functions -> line func = 3 -> func = fetch_record)
    /\ (exists funcs,
           In ("playlists"%string, funcs) categories /\ In fetch_record funcs)
    /\ (forall funcs,
           In ("api"%string, funcs) categories -> ~ In fetch_record funcs)
    /\ any_in ["api"; "load"; "get"; "post"; "put"; "fetch"]%string
              (lower (name fetch_record)) = true.
Proof.
  intros Hfs Hline. eexists _, _.
  split; [apply analyze_file_text; exact Hfs|].
  assert (Hin : In fetch_record (find_functions content)).
  { apply in_find_functions. exists 2, fetch_declaration.
    split; [exact Hline|]. split; reflexivity. }
  split; [exact Hin|]. split; [|split; [|split; [|reflexivity]]].
  - intros func Hf Hl.
    apply (find_functions_line_unique content); assumption.
  - eexists. split.
    + apply in_buckets. split; [|reflexivity]. simpl. auto 10.
    + apply filter_In. split; [exact Hin | reflexivity].
  - intros funcs H Hr. apply (in_bucket_iff fetch_record) in H.
    apply H in Hr. destruct Hr as [_ Hr]. discriminate Hr.
Qed.

Lemma fetchPlaylist_in_playlists_witness :
  sample_fs (lit "config.js") = Text sample_content
  /\ nth_error (split newline sample_content) 2 = Some fetch_line
  /\ exists categories functions,
      analyze_file sample_fs (lit "config.js") = Ok (categories, functions)
      /\ In fetch_record functions
      /\ exists funcs,
          In ("playlists"%string, funcs) categories /\ In fetch_record funcs.
Proof.
  split; [reflexivity|]. split; [reflexivity|].
  destruct (fetchPlaylist_in_playlists
              sample_fs (lit "config.js") eq_refl eq_refl)
    as (categories & functions & Ha & Hin & _ & Hp & _).
  exists categories, functions. auto.
Defined.

(** C9.  Matching looks at the start of the line only: a line that is
    matched is still matched, with the same groups, when any text is
    added after it, so a declaration followed on its line by a body is
    extracted; and the [line_content] of every record is the whole line
    with the whitespace at both ends removed, not the part the pattern
    consumed. *)
Theorem match_is_prefix_based :
  (forall l extra m,
      re_match function_pattern l = Some m ->
      re_match function_pattern (l ++ extra) = Some m)
  /\ (forall content i l m,
         nth_error (split newline content) i = Some l ->
         re_match function_pattern l = Some m ->
         exists func,
           In func (find_functions content)
           /\ line func = S i
           /\ line_content func = strip l)
  /\ find_functions one_line_body
     = [ {| name := lit "f"; line := 1; async := false;
            line_content := lit "function f() { return 1; }" |} ].
Proof.
  split; [exact function_match_prefix|]. split; [|reflexivity].
  intros content i l m Hi Hm.
  destruct (function_match_sound _ Hm) as (d & Hwf & ->).
  exists (record_of (S i) d).
  split; [|split; reflexivity].
  apply in_find_functions. eauto.
Qed.

Lemma match_is_prefix_based_witness :
  re_match function_pattern (lit "function f() {")
  = Some [(2, lit "f")]
  /\ re_match function_pattern (lit "function f() {" ++ lit " return 1; }")
     = Some [(2, lit "f")]
  /\ exists func,
      In func (find_functions one_line_body)
      /\ line func = 1
      /\ line_content func = strip one_line_body.
Proof.
  destruct match_is_prefix_based as (Hprefix & Hwhole & _).
  split; [reflexivity|]. split.
  - apply (Hprefix (lit "function f() {") (lit " return 1; }")).
    reflexivity.
  - apply (Hwhole one_line_body 0 one_line_body [(2, lit "f")]);
      reflexivity.
Defined.

(** C2, as stated, fails.  In [function f(cb = function() {}) {] the
    parameter list [cb = function() {}] is enclosed by matching
    parentheses and has a nested pair inside, yet the line is matched and
    a record with name "f" is produced: the pattern takes the parameter
    list to end at the first closing parenthesis, and what follows that
    one here is a space and a brace.  A lone opening parenthesis inside
    the list, as in [function g(a = '(') {], does not prevent the match
    either. *)
Lemma nested_parentheses_matched :
  lit "function f(cb = function() {}) {"
  = render_head head_f ++ lit "(" ++ callback_default ++ lit ")" ++ lit " {"
  /\ well_formed_head head_f = true
  /\ balanced callback_default = true
  /\ has_paren callback_default = true
  /\ find_functions (lit "function f(cb = function() {}) {")
     = [ {| name := lit "f"; line := 1; async := false;
            line_content := lit "function f(cb = function() {}) {" |} ]
  /\ has_paren (lit "a = '('") = true
  /\ find_functions (lit "function g(a = '(') {")
     = [ {| name := lit "g"; line := 1; async := false;
            line_content := lit "function g(a = '(') {" |} ]
  /\ ~ nested_parentheses_rejected.
Proof.
  repeat (split; [reflexivity|]).
  intros H.
  specialize (H head_f callback_default (lit " {") eq_refl eq_refl eq_refl).
  discriminate H.
Qed.

(** C2, amended.  After a declaration head and an opening parenthesis,
    the text up to the first closing parenthesis is what the pattern
    takes as the parameter list, and the line is matched exactly when
    that first closing parenthesis is followed by optional whitespace and
    an opening brace.  So a closing parenthesis nested in the parameter
    list prevents the match unless it is itself followed by optional
    whitespace and a brace, and an opening parenthesis in the list never
    prevents it. *)
Theorem first_closing_parenthesis_decides (d : declaration) (ps tail : str) :
  well_formed_head d = true ->
  forallb not_rparen ps = true ->
  (re_match function_pattern
            (render_head d ++ lit "(" ++ ps ++ lit ")" ++ tail) <> None
   <-> exists ws rest,
        forallb is_space ws = true /\ tail = ws ++ lit "{" ++ rest).
Proof.
  intros Hhead Hps. split.
  - intros H.
    destruct (re_match function_pattern _) as [m|] eqn:Hm; [|congruence].
    destruct (function_match_sound _ Hm) as (d' & Hwf & E).
    unfold well_formed in Hwf.
    apply andb_prop in Hwf. destruct Hwf as [Hwf Hws].
    apply andb_prop in Hwf. destruct Hwf as [Hhead' Hps'].
    unfold render in E.
    apply (split_at_first lparen) in E;
      [|apply render_head_no_lparen; assumption
       |apply render_head_no_lparen; assumption].
    destruct E as [_ E].
    apply (split_at_first rparen) in E;
      [|apply not_rparen_not_in; assumption
       |apply not_rparen_not_in; assumption].
    destruct E as [_ E].
    exists (gap_brace d'), (trailer d'). auto.
  - intros (ws & rest & Hws & ->).
    assert (Hwf : well_formed (with_params d ps ws rest) = true).
    { unfold well_formed. cbn [with_params params gap_brace].
      replace (well_formed_head (with_params d ps ws rest))
        with (well_formed_head d) by reflexivity.
      rewrite Hhead, Hps, Hws. reflexivity. }
    apply function_match_render in Hwf.
    change (render (with_params d ps ws rest))
      with (render_head d ++ lit "(" ++ ps ++ lit ")" ++ ws ++ lit "{" ++ rest)
      in Hwf.
    rewrite Hwf. discriminate.
Qed.

Lemma first_closing_parenthesis_decides_witness :
  well_formed_head head_f = true
  /\ forallb not_rparen (lit "a = g(") = true
  /\ (re_match function_pattern
               (render_head head_f ++ lit "(" ++ lit "a = g(" ++ lit ")"
                ++ lit ", b) {") <> None
      <-> exists ws rest,
           forallb is_space ws = true /\ lit ", b) {" = ws ++ lit "{" ++ rest).
Proof.
  split; [reflexivity|]. split; [reflexivity|].
  apply (first_closing_parenthesis_decides head_f (lit "a = g(") (lit ", b) {"));
    reflexivity.
Defined.

(** C6.  The text printed for a file is, line by line: the banner (a rule
    of 80 equals signs, the title, the rule again), a blank line, the
    total line with the number of extracted records, a blank line, and
    then, for the ten buckets taken in the order core, formatters,
    schedules, sorts, rules, playlists, filters, bulk_actions, api, init,
    for each bucket that is not empty a blank line, the header with the
    uppercased label and the size of the bucket, and one line per record
    with the marker (when set), the name and the line number.  An empty
    bucket contributes nothing.  For an empty file the text is the
    banner and the total line with 0. *)
Theorem report_layout :
  (forall fs filepath content,
      fs filepath = Text content ->
      exists categories functions,
        analyze_file fs filepath = Ok (categories, functions)
        /\ functions = find_functions content
        /\ List.map fst categories
           = [ "core"; "formatters"; "schedules"; "sorts"; "rules";
               "playlists"; "filters"; "bulk_actions"; "api"; "init" ]%string
        /\ (forall key funcs,
               In (key, funcs) categories ->
               funcs = filter (in_category key) functions)
        /\ print_analysis categories functions
           = unlines
               ([ rule80; lit "FUNCTION ANALYSIS"; rule80;
                  [];
                  lit "Total functions found: " ++ decimal (length functions);
                  [] ]
                ++ flat_map
                     (fun item =>
                        [ [];
                          upper (lit (fst item)) ++ lit " ("
                          ++ decimal (length (snd item))
                          ++ lit " functions):" ]
                        ++ List.map
                             (fun func =>
                                lit "  "
                                ++ (if async func then lit "async " else [])
                                ++ name func ++ lit " (line "
                                ++ decimal (line func) ++ lit ")")
                             (snd item))
                     (filter nonempty_bucket categories)))
  /\ (forall fs filepath,
         fs filepath = Text [] ->
         exists categories,
           analyze_file fs filepath = Ok (categories, [])
           /\ print_analysis categories []
              = unlines [ rule80; lit "FUNCTION ANALYSIS"; rule80;
                          []; lit "Total functions found: 0"; [] ])
  /\ rule80
     = lit "================================================================================"
  /\ List.map (fun key => upper (lit key)) category_order
     = [ lit "CORE"; lit "FORMATTERS"; lit "SCHEDULES"; lit "SORTS";
         lit "RULES"; lit "PLAYLISTS"; lit "FILTERS"; lit "BULK_ACTIONS";
         lit "API"; lit "INIT" ].
Proof.
  split; [|split; [|split; reflexivity]].
  - intros fs filepath content Hfs. eexists _, _.
    split; [apply analyze_file_text; exact Hfs|].
    split; [reflexivity|]. split; [apply buckets_keys|]. split.
    + intros key funcs H. apply in_buckets in H. tauto.
    + apply print_analysis_lines.
  - intros fs filepath Hfs. exists (buckets_of (find_functions [])).
    split; [exact (analyze_file_text _ _ Hfs) | reflexivity].
Qed.

Lemma report_layout_witness :
  sample_fs (lit "config.js") = Text sample_content
  /\ (exists categories functions,
         analyze_file sample_fs (lit "config.js") = Ok (categories, functions)
         /\ print_analysis categories functions = unlines sample_report)
  /\ empty_fs (lit "config.js") = Text []
  /\ exists categories,
      analyze_file empty_fs (lit "config.js") = Ok (categories, [])
      /\ print_analysis categories []
         = unlines [ rule80; lit "FUNCTION ANALYSIS"; rule80;
                     []; lit "Total functions found: 0"; [] ].
Proof.
  destruct report_layout as (Hreport & Hempty & _).
  split; [reflexivity|]. split; [|split; [reflexivity|]].
  - destruct (Hreport sample_fs (lit "config.js") sample_content eq_refl)
      as (categories & functions & Ha & Hf & Hk & Hb & Hp).
    exists categories, functions. split; [exact Ha|].
    rewrite Hp.
    assert (E : analyze_file sample_fs (lit "config.js")
                = Ok (buckets_of (find_functions sample_content),
                      find_functions sample_content))
      by reflexivity.
    rewrite E in Ha. inversion Ha. reflexivity.
  - apply (Hempty empty_fs (lit "config.js")). reflexivity.
Defined.

(** C7.  A run ends in one of two ways.  When the file is missing,
    unreadable or not UTF-8 text, the exception raised by reading it
    escapes: nothing at all has been written to standard output and the
    exit status is 1.  Otherwise the whole report is written and the exit
    status is 0. *)
Theorem main_exit_behaviour (argv : list str) (fs : filesystem) :
  match fs (choose_filepath argv) with
  | Text content =>
      main argv fs
      = {| stdout := unlines (report_lines (find_functions content));
           uncaught := None; exit_status := 0 |}
  | Missing =>
      main argv fs
      = {| stdout := []; uncaught := Some FileNotFoundError;
           exit_status := 1 |}
  | Unreadable =>
      main argv fs
      = {| stdout := []; uncaught := Some PermissionError;
           exit_status := 1 |}
  | Undecodable =>
      main argv fs
      = {| stdout := []; uncaught := Some UnicodeDecodeError;
           exit_status := 1 |}
  end.
Proof.
  destruct (fs (choose_filepath argv)) as [| | |content] eqn:Hfs;
    unfold main; try (unfold analyze_file, read_text; rewrite Hfs; reflexivity).
  rewrite (analyze_file_text _ _ Hfs), print_analysis_lines. reflexivity.
Qed.

(** C8.  Without an argument the file analysed is the one at the
    literal path [config.js]; with one argument it is the file at that
    argument.  In both cases the run is decided by what the file system
    holds at that path: when it holds text, the report of that text is
    printed and the status is 0; when it holds nothing, cannot be read or
    is not UTF-8, the matching exception escapes, nothing is printed and
    the status is 1.  No other file has any influence. *)
Theorem default_and_override_path :
  (forall prog, choose_filepath [prog] = lit "config.js")
  /\ (forall prog path, choose_filepath [prog; path] = path)
  /\ (forall prog fs fs',
         fs (lit "config.js") = fs' (lit "config.js") ->
         main [prog] fs = main [prog] fs')
  /\ (forall prog path fs fs',
         fs path = fs' path ->
         main [prog; path] fs = main [prog; path] fs')
  /\ (forall prog fs,
         main [prog] fs
         = match fs (lit "config.js") with
           | Text content =>
               {| stdout := unlines (report_lines (find_functions content));
                  uncaught := None; exit_status := 0 |}
           | Missing =>
               {| stdout := []; uncaught := Some FileNotFoundError;
                  exit_status := 1 |}
           | Unreadable =>
               {| stdout := []; uncaught := Some PermissionError;
                  exit_status := 1 |}
           | Undecodable =>
               {| stdout := []; uncaught := Some UnicodeDecodeError;
                  exit_status := 1 |}
           end)
  /\ (forall prog path fs,
         main [prog; path] fs
         = match fs path with
           | Text content =>
               {| stdout := unlines (report_lines (find_functions content));
                  uncaught := None; exit_status := 0 |}
           | Missing =>
               {| stdout := []; uncaught := Some FileNotFoundError;
                  exit_status := 1 |}
           | Unreadable =>
               {| stdout := []; uncaught := Some PermissionError;
                  exit_status := 1 |}
           | Undecodable =>
               {| stdout := []; uncaught := Some UnicodeDecodeError;
                  exit_status := 1 |}
           end)
  /\ (forall prog fs content,
         fs (lit "config.js") = Text content ->
         exists categories,
           analyze_file fs (lit "config.js")
           = Ok (categories, find_functions content)
           /\ main [prog] fs
              = {| stdout := print_analysis categories (find_functions content);
                   uncaught := None; exit_status := 0 |})
  /\ (forall prog path fs content,
         fs path = Text content ->
         exists categories,
           analyze_file fs path = Ok (categories, find_functions content)
           /\ main [prog; path] fs
              = {| stdout := print_analysis categories (find_functions content);
                   uncaught := None; exit_status := 0 |}).
Proof.
  assert (Hrun : forall argv fs,
             main argv fs
             = match fs (choose_filepath argv) with
               | Text content =>
                   {| stdout := unlines (report_lines (find_functions content));
                      uncaught := None; exit_status := 0 |}
               | Missing =>
                   {| stdout := []; uncaught := Some FileNotFoundError;
                      exit_status := 1 |}
               | Unreadable =>
                   {| stdout := []; uncaught := Some PermissionError;
                      exit_status := 1 |}
               | Undecodable =>
                   {| stdout := []; uncaught := Some UnicodeDecodeError;
                      exit_status := 1 |}
               end).
  { intros argv fs.
    destruct (fs (choose_filepath argv)) as [| | |content] eqn:Hfs;
      unfold main;
      try (unfold analyze_file, read_text; rewrite Hfs; reflexivity).
    rewrite (analyze_file_text _ _ Hfs), print_analysis_lines. reflexivity. }
  assert (Hprint : forall argv fs content,
             fs (choose_filepath argv) = Text content ->
             exists categories,
               analyze_file fs (choose_filepath argv)
               = Ok (categories, find_functions content)
               /\ main argv fs
                  = {| stdout := print_analysis categories
                                                (find_functions content);
                       uncaught := None; exit_status := 0 |}).
  { intros argv fs content Hfs.
    exists (buckets_of (find_functions content)).
    split; [apply analyze_file_text; exact Hfs|].
    unfold main. rewrite (analyze_file_text _ _ Hfs). reflexivity. }
  split; [reflexivity|]. split; [reflexivity|].
  split; [|split; [|split; [|split; [|split]]]].
  - intros prog fs fs' H. rewrite !Hrun.
    change (choose_filepath [prog]) with (lit "config.js").
    rewrite H. reflexivity.
  - intros prog path fs fs' H. rewrite !Hrun.
    change (choose_filepath [prog; path]) with path.
    rewrite H. reflexivity.
  - intros prog fs. apply (Hrun [prog] fs).
  - intros prog path fs. apply (Hrun [prog; path] fs).
  - intros prog fs content H. apply (Hprint [prog] fs content H).
  - intros prog path fs content H. apply (Hprint [prog; path] fs content H).
Qed.

Lemma default_and_override_path_witness :
  two_files_fs (lit "config.js") = Text sample_content
  /\ two_files_fs (lit "other.js") = Text one_line_body
  /\ main [lit "split-config.js.py"] two_files_fs
     = {| stdout := unlines sample_report;
          uncaught := None; exit_status := 0 |}
  /\ main [lit "split-config.js.py"; lit "other.js"] two_files_fs
     = {| stdout := unlines one_line_report;
          uncaught := None; exit_status := 0 |}
  /\ main [lit "split-config.js.py"; lit "missing.js"] two_files_fs
     = {| stdout := []; uncaught := Some FileNotFoundError;
          exit_status := 1 |}
  /\ (exists categories,
         analyze_file two_files_fs (lit "other.js")
         = Ok (categories, find_functions one_line_body)
         /\ main [lit "split-config.js.py"; lit "other.js"] two_files_fs
            = {| stdout := print_analysis categories
                                          (find_functions one_line_body);
                 uncaught := None; exit_status := 0 |})
  /\ main [lit "split-config.js.py"; lit "other.js"] two_files_fs
     = main [lit "split-config.js.py"; lit "other.js"]
            (fun _ => Text one_line_body).
Proof.
  destruct default_and_override_path
    as (_ & _ & _ & Hsame & Hdefault & Hgiven & _ & Hprint).
  split; [reflexivity|]. split; [reflexivity|].
  split; [|split; [|split; [|split]]].
  - rewrite (Hdefault (lit "split-config.js.py") two_files_fs). reflexivity.
  - rewrite (Hgiven (lit "split-config.js.py") (lit "other.js") two_files_fs).
    reflexivity.
  - rewrite (Hgiven (lit "split-config.js.py") (lit "missing.js") two_files_fs).
    reflexivity.
  - apply (Hprint (lit "split-config.js.py") (lit "other.js") two_files_fs
                  one_line_body).
    reflexivity.
  - apply (Hsame (lit "split-config.js.py") (lit "other.js")). reflexivity.
Defined.


(** * Further properties of the script *)

(** ** Lines *)

Lemma split_cons_form (sep : N) (s : str) :
  exists l ls, split sep s = l :: ls.
Proof.
  induction s as [|c s IH]; simpl; [eauto|].
  destruct (c =? sep)%N; [eauto|].
  destruct IH as (l & ls & ->). eauto.
Qed.

Lemma split_app_sep (sep : N) (a b : str) :
  split sep (a ++ sep :: b) = split sep a ++ split sep b.
Proof.
  induction a as [|c a IH]; simpl.
  - rewrite N.eqb_refl. reflexivity.
  - destruct (c =? sep)%N; rewrite IH; [reflexivity|].
    destruct (split_cons_form sep a) as (l & ls & ->). reflexivity.
Qed.

Lemma split_length (s : str) :
  length (split newline s) = S (count_newlines s).
Proof.
  unfold count_newlines. induction s as [|c s IH]; simpl; [reflexivity|].
  destruct (N.eqb_spec c newline) as [->|Hne].
  - simpl. rewrite IH.
    destruct (N.eq_dec newline newline); [reflexivity | congruence].
  - destruct (split_cons_form newline s) as (l & ls & E).
    rewrite E in *. simpl in *. rewrite IH.
    destruct (N.eq_dec c newline); [congruence | reflexivity].
Qed.

Lemma split_head_prefix (sep : N) (s : str) :
  forall l ls, split sep s = l :: ls -> exists post, s = l ++ post.
Proof.
  induction s as [|c s IH]; simpl; intros l ls H.
  - inversion H. exists []. reflexivity.
  - destruct (c =? sep)%N.
    + inversion H. exists (c :: s). reflexivity.
    + destruct (split_cons_form sep s) as (l0 & ls0 & E). rewrite E in H.
      inversion H; subst. destruct (IH _ _ E) as (post & ->).
      exists post. reflexivity.
Qed.

(** A line of the file is a piece of its text. *)
Lemma split_line_substring (sep : N) (s : str) :
  forall i l, nth_error (split sep s) i = Some l ->
              exists pre post, s = pre ++ l ++ post.
Proof.
  induction s as [|c s IH]; simpl; intros i l H.
  - destruct i as [|[|i]]; simpl in H; try discriminate.
    inversion H. exists [], []. reflexivity.
  - destruct (c =? sep)%N.
    + destruct i as [|i]; simpl in H.
      * inversion H. exists [], (c :: s). reflexivity.
      * destruct (IH _ _ H) as (pre & post & ->).
        exists (c :: pre), post. reflexivity.
    + destruct (split_cons_form sep s) as (l0 & ls & E). rewrite E in *.
      destruct i as [|i]; simpl in H.
      * inversion H; subst.
        destruct (split_head_prefix _ _ E) as (post & ->).
        exists [], post. reflexivity.
      * destruct (IH (S i) l H) as (pre & post & ->).
        exists (c :: pre), post. reflexivity.
Qed.

(** ** The extraction loop, continued *)

Lemma find_step_length (i : nat) (l : str) :
  length (find_step [] (i, l)) = if is_match l then 1 else 0.
Proof.
  unfold find_step, is_match.
  destruct (re_match function_pattern l); reflexivity.
Qed.

Lemma find_lines_count (ls : list str) (start : nat) :
  length (flat_map (find_step []) (enumerate start ls))
  = length (filter is_match ls).
Proof.
  revert start. induction ls as [|l ls IH]; intros start;
    cbn [flat_map enumerate filter]; [reflexivity|].
  rewrite length_app, find_step_length, IH.
  destruct (is_match l); reflexivity.
Qed.

Lemma enumerate_app (A : Type) (l1 l2 : list A) (start : nat) :
  enumerate start (l1 ++ l2)
  = enumerate start l1 ++ enumerate (length l1 + start) l2.
Proof.
  revert start. induction l1 as [|x l1 IH]; intros start; simpl;
    [reflexivity|].
  rewrite IH. repeat f_equal. lia.
Qed.

Lemma find_step_shift (k i : nat) (l : str) :
  find_step [] (k + i, l) = List.map (shift_line k) (find_step [] (i, l)).
Proof.
  unfold find_step. destruct (re_match function_pattern l); reflexivity.
Qed.

Lemma find_lines_shift (ls : list str) (k start : nat) :
  flat_map (find_step []) (enumerate (k + start) ls)
  = List.map (shift_line k) (flat_map (find_step []) (enumerate start ls)).
Proof.
  revert start. induction ls as [|l ls IH]; intros start;
    cbn [flat_map enumerate]; [reflexivity|].
  rewrite map_app, <- find_step_shift. f_equal.
  replace (S (k + start)) with (k + S start) by lia. apply IH.
Qed.

Lemma find_functions_app (a b : str) :
  find_functions (a ++ newline :: b)
  = find_functions a
    ++ List.map (shift_line (length (split newline a))) (find_functions b).
Proof.
  rewrite !find_functions_flat_map, split_app_sep, enumerate_app, flat_map_app.
  f_equal. apply find_lines_shift.
Qed.

(** X1.  The records are exactly the declaration lines: a record is
    extracted if and only if it is the record of a well-formed
    declaration standing on the line whose 1-based position it carries.
    Nothing else is ever extracted. *)
Theorem extracted_iff_declaration (content : str) (func : FunctionRecord) :
  In func (find_functions content) <->
  exists i d,
    nth_error (split newline content) i = Some (render d)
    /\ well_formed d = true
    /\ func = {| name := ident d;
                 line := S i;
                 async := match marker d with Some _ => true | None => false end;
                 line_content := strip (render d) |}.
Proof. apply in_find_functions. Qed.

(** X2.  The number of records is the number of lines that the pattern
    matches; it never exceeds the number of lines, which is one more than
    the number of newline characters; and every line number lies between
    1 and the number of lines. *)
Theorem record_count_and_line_bounds (content : str) :
  length (find_functions content)
  = length (filter is_match (split newline content))
  /\ length (find_functions content) <= S (count_newlines content)
  /\ forall func,
      In func (find_functions content) ->
      1 <= line func <= S (count_newlines content).
Proof.
  assert (Hlen : length (find_functions content)
                 = length (filter is_match (split newline content))).
  { rewrite find_functions_flat_map. apply find_lines_count. }
  split; [exact Hlen|]. split.
  - rewrite Hlen, <- split_length. apply filter_length_le.
  - intros func H. apply in_find_functions in H.
    destruct H as (i & d & Hi & _ & ->). simpl.
    rewrite <- split_length.
    assert (i < length (split newline content))
      by (apply nth_error_Some; congruence).
    lia.
Qed.

Lemma record_count_and_line_bounds_witness :
  In fetch_record (find_functions sample_content)
  /\ 1 <= line fetch_record <= S (count_newlines sample_content).
Proof.
  destruct (record_count_and_line_bounds sample_content) as (_ & _ & H).
  assert (Hin : In fetch_record (find_functions sample_content))
    by (simpl; auto).
  split; [exact Hin | exact (H fetch_record Hin)].
Defined.

(** X3.  Extraction composes over files put one after the other: the
    records of [a], a newline and [b] are the records of [a] followed by
    the records of [b] with their line numbers moved down by the number
    of lines of [a]. *)
Theorem find_functions_concatenation (a b : str) :
  find_functions (a ++ [newline] ++ b)
  = find_functions a
    ++ List.map (shift_line (S (count_newlines a))) (find_functions b).
Proof.
  rewrite <- split_length. apply find_functions_app.
Qed.

(** X4.  A newline at the end of the file adds an empty last line and no
    record; a newline at the start moves every record down by one line.
    Blank lines never produce records. *)
Theorem surrounding_newlines (content : str) :
  find_functions (content ++ [newline]) = find_functions content
  /\ find_functions (newline :: content)
     = List.map (shift_line 1) (find_functions content).
Proof.
  split.
  - rewrite (find_functions_app content []). apply app_nil_r.
  - apply (find_functions_app [] content).
Qed.

(** ** Stripping *)

Lemma lstrip_spaces (ws rest : str) :
  forallb is_space ws = true -> lstrip (ws ++ rest) = lstrip rest.
Proof.
  induction ws as [|c ws IH]; simpl; intros H; [reflexivity|].
  apply andb_prop in H. destruct H as [Hc Hws].
  rewrite Hc. apply IH, Hws.
Qed.

Lemma lstrip_fixed (s : str) : stops is_space s = true -> lstrip s = s.
Proof.
  destruct s as [|c s]; simpl; [reflexivity|].
  destruct (is_space c); [discriminate | reflexivity].
Qed.

Lemma lstrip_stops (s : str) : stops is_space (lstrip s) = true.
Proof.
  induction s as [|c s IH]; simpl; [reflexivity|].
  destruct (is_space c) eqn:Hc; [exact IH|].
  simpl. rewrite Hc. reflexivity.
Qed.

Lemma lstrip_leading (s : str) :
  exists ws, forallb is_space ws = true /\ s = ws ++ lstrip s.
Proof.
  induction s as [|c s IH]; simpl.
  - exists []. auto.
  - destruct (is_space c) eqn:Hc.
    + destruct IH as (ws & Hws & E). exists (c :: ws). simpl.
      rewrite Hc, Hws. split; [reflexivity|]. f_equal. exact E.
    + exists []. auto.
Qed.

Lemma lstrip_snoc (t : str) (c : N) :
  is_space c = false -> lstrip (t ++ [c]) = lstrip t ++ [c].
Proof.
  intros Hc. induction t as [|x t IH]; simpl.
  - rewrite Hc. reflexivity.
  - destruct (is_space x); [exact IH | reflexivity].
Qed.

Lemma rstrip_cons (c : N) (s : str) :
  is_space c = false -> rstrip (c :: s) = c :: rstrip s.
Proof.
  intros Hc. unfold rstrip. simpl.
  rewrite lstrip_snoc by exact Hc. rewrite rev_app_distr. reflexivity.
Qed.

Lemma rstrip_keyword (kw s : str) :
  forallb (fun c => negb (is_space c)) kw = true ->
  rstrip (kw ++ s) = kw ++ rstrip s.
Proof.
  induction kw as [|c kw IH]; simpl; intros H; [reflexivity|].
  apply andb_prop in H. destruct H as [Hc Hkw].
  apply negb_true_iff in Hc.
  rewrite rstrip_cons by exact Hc. rewrite (IH Hkw). reflexivity.
Qed.

Lemma rstrip_stops (s : str) :
  stops is_space s = true -> stops is_space (rstrip s) = true.
Proof.
  destruct s as [|c s]; simpl; intros H; [reflexivity|].
  apply negb_true_iff in H. rewrite rstrip_cons by exact H. simpl.
  rewrite H. reflexivity.
Qed.

Lemma rstrip_idempotent (s : str) : rstrip (rstrip s) = rstrip s.
Proof.
  unfold rstrip. rewrite rev_involutive.
  rewrite lstrip_fixed by apply lstrip_stops. reflexivity.
Qed.

Lemma strip_idempotent (s : str) : strip (strip s) = strip s.
Proof.
  unfold strip.
  rewrite lstrip_fixed by apply rstrip_stops, lstrip_stops.
  apply rstrip_idempotent.
Qed.

Lemma strip_spaces (ws rest : str) :
  forallb is_space ws = true -> strip (ws ++ rest) = strip rest.
Proof. intros H. unfold strip. rewrite lstrip_spaces by exact H. reflexivity. Qed.

(** ** Indentation *)

Lemma render_reindent (ws : str) (d : declaration) :
  render d = indent d ++ render (reindent [] d)
  /\ render (reindent ws d) = ws ++ render (reindent [] d).
Proof.
  unfold render, render_head, reindent.
  cbn [indent marker gap_name ident gap_paren params gap_brace trailer].
  repeat rewrite <- app_assoc. split; reflexivity.
Qed.

Lemma well_formed_reindent (ws : str) (d : declaration) :
  forallb is_space ws = true -> well_formed d = true ->
  well_formed (reindent ws d) = true.
Proof.
  unfold well_formed, well_formed_head, reindent.
  cbn [indent marker gap_name ident gap_paren params gap_brace trailer].
  intros Hws H.
  repeat (apply andb_prop in H; destruct H as [H ?]).
  repeat (apply andb_true_intro; split); assumption.
Qed.

Lemma well_formed_indent (d : declaration) :
  well_formed d = true -> forallb is_space (indent d) = true.
Proof.
  unfold well_formed, well_formed_head. intros H.
  repeat (apply andb_prop in H; destruct H as [H ?]). exact H.
Qed.

Lemma render_unindented_stops (d : declaration) :
  stops is_space (render (reindent [] d)) = true.
Proof.
  unfold render, render_head, reindent.
  cbn [indent marker gap_name ident gap_paren params gap_brace trailer].
  destruct (marker d); reflexivity.
Qed.

Lemma lstrip_render (d : declaration) :
  well_formed d = true -> lstrip (render d) = render (reindent [] d).
Proof.
  intros Hwf. rewrite (proj1 (render_reindent [] d)).
  rewrite lstrip_spaces by (apply well_formed_indent; exact Hwf).
  apply lstrip_fixed, render_unindented_stops.
Qed.

(** The match of a line is the match of the line without its leading
    whitespace. *)
Lemma function_match_lstrip (l : str) :
  re_match function_pattern l = re_match function_pattern (lstrip l).
Proof.
  destruct (re_match function_pattern l) as [m|] eqn:Hm.
  - apply function_match_groups in Hm. destruct Hm as (d & Hwf & -> & ->).
    rewrite lstrip_render by exact Hwf. symmetry.
    apply (function_match_render (reindent [] d)).
    apply well_formed_reindent; [reflexivity | exact Hwf].
  - destruct (re_match function_pattern (lstrip l)) as [m|] eqn:Hm';
      [|reflexivity].
    apply function_match_groups in Hm'. destruct Hm' as (d & Hwf & E & _).
    destruct (lstrip_leading l) as (ws & Hws & El).
    assert (Hwf' : well_formed (reindent (ws ++ indent d) d) = true).
    { apply well_formed_reindent; [|exact Hwf].
      rewrite forallb_app, Hws, well_formed_indent by exact Hwf. reflexivity. }
    apply function_match_render in Hwf'.
    rewrite (proj2 (render_reindent (ws ++ indent d) d)) in Hwf'.
    rewrite <- app_assoc, <- (proj1 (render_reindent [] d)) in Hwf'.
    rewrite <- E, <- El in Hwf'. congruence.
Qed.

(** X5.  Indentation does not matter: whitespace put in front of a line
    changes neither whether the line is matched nor the record made for
    it, so a declaration nested at any depth is extracted like one at the
    left margin. *)
Theorem indentation_is_ignored
        (ws l : str) (i : nat) (functions : list FunctionRecord) :
  forallb is_space ws = true ->
  re_match function_pattern (ws ++ l) = re_match function_pattern l
  /\ find_step functions (i, ws ++ l) = find_step functions (i, l).
Proof.
  intros Hws.
  assert (E : re_match function_pattern (ws ++ l)
              = re_match function_pattern l).
  { rewrite (function_match_lstrip (ws ++ l)).
    rewrite lstrip_spaces by exact Hws.
    symmetry. apply function_match_lstrip. }
  split; [exact E|].
  unfold find_step. rewrite E. rewrite strip_spaces by exact Hws. reflexivity.
Qed.

Lemma indentation_is_ignored_witness :
  forallb is_space (lit "      ") = true
  /\ find_step [] (7, lit "      " ++ fetch_line) = find_step [] (7, fetch_line).
Proof.
  split; [reflexivity|].
  apply (indentation_is_ignored (lit "      ") fetch_line 7 []). reflexivity.
Defined.

(** ** What a record keeps of its line *)

Lemma contains_unfold (needle hay : str) :
  contains needle hay
  = match strip_prefix needle hay with
    | Some _ => true
    | None => match hay with
              | [] => false
              | _ :: hay' => contains needle hay'
              end
    end.
Proof. destruct hay; reflexivity. Qed.

Lemma contains_intro (needle pre post : str) :
  contains needle (pre ++ needle ++ post) = true.
Proof.
  induction pre as [|c pre IH]; rewrite contains_unfold.
  - simpl. rewrite strip_prefix_app. reflexivity.
  - destruct (strip_prefix needle ((c :: pre) ++ needle ++ post));
      [reflexivity | exact IH].
Qed.

Lemma render_contains_function (d : declaration) :
  contains (lit "function") (render d) = true.
Proof.
  unfold render, render_head. repeat rewrite <- app_assoc.
  rewrite app_assoc. apply contains_intro.
Qed.

Lemma strip_render (d : declaration) :
  well_formed d = true ->
  strip (render d)
  = match marker d with
    | Some _ => lit "async"
    | None => lit "function"
    end
    ++ rstrip (match strip_prefix
                       (match marker d with
                        | Some _ => lit "async"
                        | None => lit "function"
                        end) (render (reindent [] d)) with
               | Some rest => rest
               | None => []
               end).
Proof.
  intros Hwf. unfold strip. rewrite lstrip_render by exact Hwf.
  unfold render, render_head, reindent.
  cbn [indent marker gap_name ident gap_paren params gap_brace trailer].
  destruct (marker d) as [w|]; cbn [app]; repeat rewrite <- app_assoc;
    rewrite strip_prefix_app; apply rstrip_keyword; reflexivity.
Qed.

(** X6.  The [line_content] of a record has no whitespace at either end
    and starts with the keyword of the declaration: [async] when the flag
    is set, [function] otherwise. *)
Theorem line_content_starts_with_keyword
        (content : str) (func : FunctionRecord) :
  In func (find_functions content) ->
  strip (line_content func) = line_content func
  /\ starts_with (first_keyword func) (line_content func) = true.
Proof.
  intros H. apply in_find_functions in H.
  destruct H as (i & d & _ & Hwf & ->).
  unfold record_of, first_keyword, starts_with. cbn [line_content async].
  split; [apply strip_idempotent|].
  rewrite strip_render by exact Hwf.
  destruct (marker d); rewrite strip_prefix_app; reflexivity.
Qed.

Lemma line_content_starts_with_keyword_witness :
  In fetch_record (find_functions sample_content)
  /\ strip (line_content fetch_record) = line_content fetch_record
  /\ starts_with (lit "async") (line_content fetch_record) = true.
Proof.
  assert (Hin : In fetch_record (find_functions sample_content))
    by (simpl; auto).
  split; [exact Hin|].
  exact (line_content_starts_with_keyword sample_content fetch_record Hin).
Defined.

(** X7.  Text in which the word [function] does not occur yields
    nothing: such a line is never matched, and such a file has no
    records. *)
Theorem no_function_keyword_no_record :
  (forall l,
      contains (lit "function") l = false ->
      re_match function_pattern l = None)
  /\ (forall content,
         contains (lit "function") content = false ->
         find_functions content = []).
Proof.
  split.
  - intros l H. destruct (re_match function_pattern l) as [m|] eqn:Hm;
      [|reflexivity].
    apply function_match_sound in Hm. destruct Hm as (d & _ & ->).
    rewrite render_contains_function in H. discriminate.
  - intros content H.
    destruct (find_functions content) as [|func rest] eqn:E; [reflexivity|].
    assert (Hin : In func (find_functions content))
      by (rewrite E; left; reflexivity).
    apply in_find_functions in Hin.
    destruct Hin as (i & d & Hi & _ & _).
    apply split_line_substring in Hi. destruct Hi as (pre & post & ->).
    unfold render, render_head in H.
    repeat rewrite <- app_assoc in H.
    exfalso. revert H.
    rewrite (app_assoc pre), (app_assoc (pre ++ indent d)).
    rewrite contains_intro. discriminate.
Qed.

Lemma no_function_keyword_no_record_witness :
  contains (lit "function") (lit "const f = (a, b) => {") = false
  /\ re_match function_pattern (lit "const f = (a, b) => {") = None
  /\ find_functions (lit "const f = (a, b) => {") = [].
Proof.
  destruct no_function_keyword_no_record as (Hline & Hfile).
  split; [reflexivity|]. split.
  - apply Hline. reflexivity.
  - apply Hfile. reflexivity.
Defined.

(** X8.  Every extracted name is a non-empty identifier of ASCII
    letters, digits and underscores that does not start with a digit. *)
Theorem names_are_ascii_identifiers (content : str) (func : FunctionRecord) :
  In func (find_functions content) ->
  name func <> []
  /\ is_identifier (name func) = true
  /\ Forall (fun c => is_ident_char c = true /\ (c < 128)%N) (name func).
Proof.
  intros H. apply find_functions_names_ascii in H. destruct H as [Hid Hascii].
  split; [destruct (name func); [discriminate | congruence]|].
  split; [exact Hid|].
  destruct (name func) as [|c s]; [constructor|].
  simpl in Hid. apply andb_prop in Hid. destruct Hid as [Hc Hs].
  inversion Hascii; subst.
  constructor; [auto using is_ident_start_char|].
  rewrite forallb_forall in Hs. rewrite Forall_forall in *.
  intros x Hx. auto.
Qed.

Lemma names_are_ascii_identifiers_witness :
  In fetch_record (find_functions sample_content)
  /\ name fetch_record <> []
  /\ is_identifier (name fetch_record) = true.
Proof.
  assert (Hin : In fetch_record (find_functions sample_content))
    by (simpl; auto).
  split; [exact Hin|].
  destruct (names_are_ascii_identifiers sample_content fetch_record Hin)
    as (Hne & Hid & _).
  split; assumption.
Defined.

(** ** Buckets *)

Lemma sorted_lines_filter (p : FunctionRecord -> bool)
      (functions : list FunctionRecord) :
  StronglySorted lt (List.map line functions) ->
  StronglySorted lt (List.map line (filter p functions)).
Proof.
  induction functions as [|func rest IH]; simpl; intros H; [constructor|].
  inversion H as [|? ? Hs Hall]; subst.
  destruct (p func); [|auto].
  simpl. constructor; [auto|].
  rewrite Forall_forall in *. intros n Hn. apply Hall.
  rewrite in_map_iff in *. destruct Hn as (x & <- & Hx).
  exists x. split; [reflexivity|]. apply filter_In in Hx. tauto.
Qed.

(** X9.  The total printed on the report is the sum of the sizes printed
    in the headers: the length of [functions] is the sum of the lengths
    of the ten buckets. *)
Theorem total_is_sum_of_buckets (fs : filesystem) (filepath content : str) :
  fs filepath = Text content ->
  exists categories functions,
    analyze_file fs filepath = Ok (categories, functions)
    /\ length functions
       = list_sum (List.map (fun item => length (snd item)) categories).
Proof.
  intros Hfs. eexists _, _.
  split; [apply analyze_file_text; exact Hfs|].
  rewrite <- (Permutation_length (buckets_partition (find_functions content))).
  rewrite length_concat, map_map. reflexivity.
Qed.

Lemma total_is_sum_of_buckets_witness :
  sample_fs (lit "config.js") = Text sample_content
  /\ exists categories functions,
      analyze_file sample_fs (lit "config.js") = Ok (categories, functions)
      /\ length functions
         = list_sum (List.map (fun item => length (snd item)) categories).
Proof.
  split; [reflexivity|].
  apply total_is_sum_of_buckets with (content := sample_content).
  reflexivity.
Defined.

(** X10.  Inside every bucket the records stand in file order: their
    line numbers are strictly ascending, so each section of the report
    lists its functions from the top of the file to the bottom. *)
Theorem buckets_keep_file_order (fs : filesystem) (filepath content : str) :
  fs filepath = Text content ->
  exists categories functions,
    analyze_file fs filepath = Ok (categories, functions)
    /\ forall key funcs,
        In (key, funcs) categories ->
        StronglySorted lt (List.map line funcs).
Proof.
  intros Hfs. eexists _, _.
  split; [apply analyze_file_text; exact Hfs|].
  intros key funcs H. apply in_buckets in H. destruct H as [_ ->].
  apply sorted_lines_filter, find_functions_sorted.
Qed.

Lemma buckets_keep_file_order_witness :
  sample_fs (lit "config.js") = Text sample_content
  /\ exists categories functions,
      analyze_file sample_fs (lit "config.js") = Ok (categories, functions)
      /\ forall key funcs,
          In (key, funcs) categories ->
          StronglySorted lt (List.map line funcs).
Proof.
  split; [reflexivity|].
  apply buckets_keep_file_order with (content := sample_content).
  reflexivity.
Defined.

(** ** Letter case and keywords *)

Lemma lower_upper_char (c : N) : lower_char (upper_char c) = lower_char c.
Proof.
  unfold lower_char, upper_char.
  destruct ((97 <=? c) && (c <=? 122))%N eqn:E1;
    destruct ((65 <=? c) && (c <=? 90))%N eqn:E2;
    try destruct ((65 <=? c - 32) && (c - 32 <=? 90))%N eqn:E3;
    classes.
Qed.

Lemma lower_lower_char (c : N) : lower_char (lower_char c) = lower_char c.
Proof.
  unfold lower_char.
  destruct ((65 <=? c) && (c <=? 90))%N eqn:E1; [|rewrite E1; reflexivity].
  destruct ((65 <=? c + 32) && (c + 32 <=? 90))%N eqn:E2; classes.
Qed.

Lemma lower_app (a b : str) : lower (a ++ b) = lower a ++ lower b.
Proof. apply map_app. Qed.

(** X11.  Classification does not look at letter case: an identifier,
    the same identifier in capitals and the same in small letters get the
    same label.  (The statement is kept to identifiers, the names on
    which [lower] and [upper] are Python's.) *)
Theorem classification_ignores_case (func_name : str) :
  is_identifier func_name = true ->
  category_of (upper func_name) = category_of func_name
  /\ category_of (lower func_name) = category_of func_name.
Proof.
  intros _. unfold category_of.
  replace (lower (upper func_name)) with (lower func_name).
  - replace (lower (lower func_name)) with (lower func_name); [auto|].
    unfold lower. rewrite map_map. apply map_ext. intros c.
    symmetry. apply lower_lower_char.
  - unfold lower, upper. rewrite map_map. apply map_ext. intros c.
    symmetry. apply lower_upper_char.
Qed.

Lemma classification_ignores_case_witness :
  is_identifier (lit "fetchPlaylist") = true
  /\ category_of (upper (lit "fetchPlaylist")) = category_of (lit "fetchPlaylist")
  /\ category_of (lower (lit "fetchPlaylist")) = category_of (lit "fetchPlaylist").
Proof.
  split; [reflexivity|].
  apply (classification_ignores_case (lit "fetchPlaylist")). reflexivity.
Defined.

(** X12.  A keyword of the first branch decides wherever it stands and
    however it is capitalised: a name with such a keyword in it, with any
    text before and after, is labelled [formatters]. *)
Theorem formatter_keyword_anywhere (pre mid post : str) (kw : string) :
  In kw formatter_keywords ->
  lower mid = lit kw ->
  category_of (pre ++ mid ++ post) = "formatters"%string.
Proof.
  intros Hkw Hmid. unfold category_of.
  assert (E : any_in formatter_keywords (lower (pre ++ mid ++ post)) = true).
  { unfold any_in. apply existsb_exists. exists kw. split; [exact Hkw|].
    rewrite !lower_app, Hmid. apply contains_intro. }
  unfold formatter_keywords in E. rewrite E. reflexivity.
Qed.

Lemma formatter_keyword_anywhere_witness :
  In "escape"%string formatter_keywords
  /\ lower (lit "ESCape") = lit "escape"
  /\ category_of (lit "bulk" ++ lit "ESCape" ++ lit "Rule")
     = "formatters"%string.
Proof.
  split; [simpl; auto|]. split; [reflexivity|].
  apply formatter_keyword_anywhere with (kw := "escape"%string);
    [simpl; auto | reflexivity].
Defined.

(** X13.  No branch of the chain and no keyword in it is dead: a
    function named exactly like a keyword gets the label of that
    keyword's branch, and each of the ten labels is the label of some
    identifier. *)
Theorem every_keyword_is_live :
  (forall label keywords kw,
      In (label, keywords) priority_rules ->
      In kw keywords ->
      category_of (lit kw) = label)
  /\ (forall key,
         In key category_order ->
         exists func_name,
           is_identifier func_name = true /\ category_of func_name = key).
Proof.
  split.
  - intros label keywords kw Hrule Hkw.
    unfold priority_rules in Hrule. simpl in Hrule.
    repeat (destruct Hrule as [Hrule|Hrule];
            [inversion Hrule; subst; simpl in Hkw;
             repeat (destruct Hkw as [Hkw|Hkw]; [subst; reflexivity|]);
             contradiction|]).
    contradiction.
  - intros key Hkey. unfold category_order in Hkey. simpl in Hkey.
    destruct Hkey as [<-|Hkey]; [exists (lit "main"); split; reflexivity|].
    repeat (destruct Hkey as [<-|Hkey];
            [first [ exists (lit "format"); split; reflexivity
                   | exists (lit "schedule"); split; reflexivity
                   | exists (lit "sort"); split; reflexivity
                   | exists (lit "rule"); split; reflexivity
                   | exists (lit "playlist"); split; reflexivity
                   | exists (lit "filter"); split; reflexivity
                   | exists (lit "bulk"); split; reflexivity
                   | exists (lit "api"); split; reflexivity
                   | exists (lit "init"); split; reflexivity ]|]).
    contradiction.
Qed.

Lemma every_keyword_is_live_witness :
  In ("api"%string, ["api"; "load"; "get"; "post"; "put"; "fetch"]%string)
     priority_rules
  /\ category_of (lit "put") = "api"%string
  /\ exists func_name,
      is_identifier func_name = true /\ category_of func_name = "core"%string.
Proof.
  destruct every_keyword_is_live as (Hkw & Hlabel).
  split; [simpl; auto 10|]. split.
  - apply (Hkw "api"%string ["api"; "load"; "get"; "post"; "put"; "fetch"]%string);
      simpl; auto 10.
  - apply Hlabel. simpl. auto.
Defined.

(** ** The size of the report *)

Lemma count_newlines_app (a b : str) :
  count_newlines (a ++ b) = count_newlines a + count_newlines b.
Proof. apply count_occ_app. Qed.

Lemma count_newlines_plain (l : str) :
  ~ In newline l -> count_newlines l = 0.
Proof. apply count_occ_not_In. Qed.

Lemma count_newlines_unlines (ls : list str) :
  Forall (fun l => ~ In newline l) ls ->
  count_newlines (unlines ls) = length ls.
Proof.
  induction 1 as [|l ls Hl Hls IH]; [reflexivity|].
  unfold unlines in *. cbn [flat_map length].
  rewrite !count_newlines_app, IH.
  rewrite count_newlines_plain by exact Hl. reflexivity.
Qed.

Lemma digits_plain (u : Decimal.uint) :
  ~ In newline (lit (NilEmpty.string_of_uint u)).
Proof.
  induction u; simpl; try tauto;
    intros [H|H]; try discriminate H; auto.
Qed.

Lemma decimal_plain (n : nat) : ~ In newline (decimal n).
Proof.
  unfold decimal, NilZero.string_of_uint.
  destruct (Nat.to_uint n) eqn:E; try (rewrite <- E; apply digits_plain).
  simpl. intros [H|[]]. discriminate H.
Qed.

Lemma identifier_plain (s : str) :
  is_identifier s = true -> ~ In newline s.
Proof.
  destruct s as [|c s]; [discriminate|]. simpl. intros H.
  apply andb_prop in H. destruct H as [Hc Hs].
  intros [E|Hin].
  - subst c. discriminate Hc.
  - rewrite forallb_forall in Hs. specialize (Hs _ Hin). discriminate Hs.
Qed.

Lemma plain_app (a b : str) :
  ~ In newline a -> ~ In newline b -> ~ In newline (a ++ b).
Proof. intros Ha Hb H. apply in_app_or in H. tauto. Qed.

Lemma function_line_plain (func : FunctionRecord) :
  is_identifier (name func) = true -> ~ In newline (function_line func).
Proof.
  intros H. unfold function_line.
  repeat apply plain_app;
    try apply decimal_plain; try (apply identifier_plain; exact H);
    try (destruct (async func)); simpl; intuition discriminate.
Qed.

Lemma section_lines_plain (functions : list FunctionRecord) item :
  (forall func, In func functions -> is_identifier (name func) = true) ->
  In item (buckets_of functions) ->
  Forall (fun l => ~ In newline l) (section_lines item).
Proof.
  intros Hnames Hitem. destruct item as [key funcs].
  apply in_buckets in Hitem. destruct Hitem as [Hkey ->].
  unfold section_lines. cbn [fst snd]. apply Forall_app. split.
  - constructor; [simpl; tauto|]. constructor; [|constructor].
    repeat apply plain_app; try apply decimal_plain;
      try (simpl; intuition discriminate).
    unfold category_order in Hkey. simpl in Hkey.
    repeat (destruct Hkey as [<-|Hkey]; [simpl; intuition discriminate|]).
    contradiction.
  - apply Forall_forall. intros l Hl. apply in_map_iff in Hl.
    destruct Hl as (func & <- & Hin). apply filter_In in Hin.
    apply function_line_plain, Hnames. tauto.
Qed.

Lemma report_lines_plain (content : str) :
  Forall (fun l => ~ In newline l) (report_lines (find_functions content)).
Proof.
  unfold report_lines. apply Forall_app. split.
  - repeat constructor;
      try (simpl; intuition discriminate).
    apply plain_app; [simpl; intuition discriminate | apply decimal_plain].
  - apply Forall_flat_map, Forall_forall. intros item Hitem.
    apply filter_In in Hitem. destruct Hitem as [Hitem _].
    apply section_lines_plain with (functions := find_functions content);
      [|exact Hitem].
    intros func Hin. apply find_functions_names_ascii in Hin. tauto.
Qed.

Lemma sections_length (categories : dict) :
  length (flat_map section_lines (filter nonempty_bucket categories))
  = 2 * length (filter nonempty_bucket categories)
    + list_sum (List.map (fun item => length (snd item)) categories).
Proof.
  induction categories as [|[key funcs] rest IH]; [reflexivity|].
  cbn [filter List.map list_sum snd].
  destruct funcs as [|func funcs]; cbn [nonempty_bucket snd].
  - rewrite IH. reflexivity.
  - cbn [flat_map]. rewrite length_app, IH.
    unfold section_lines. cbn [fst snd app length].
    rewrite length_map. simpl. lia.
Qed.

(** X14.  The report has one line per extracted function, two lines per
    non-empty bucket and six lines of banner and total, and no name can
    break a line: the number of newline characters written is that
    sum. *)
Theorem report_size (fs : filesystem) (filepath content : str) :
  fs filepath = Text content ->
  exists categories functions,
    analyze_file fs filepath = Ok (categories, functions)
    /\ count_newlines (print_analysis categories functions)
       = 6 + 2 * length (filter nonempty_bucket categories)
         + length functions.
Proof.
  intros Hfs. eexists _, _.
  split; [apply analyze_file_text; exact Hfs|].
  rewrite print_analysis_lines.
  rewrite count_newlines_unlines by apply report_lines_plain.
  unfold report_lines. rewrite length_app, sections_length.
  rewrite <- (Permutation_length (buckets_partition (find_functions content))).
  rewrite length_concat, map_map. simpl. lia.
Qed.

Lemma report_size_witness :
  sample_fs (lit "config.js") = Text sample_content
  /\ exists categories functions,
      analyze_file sample_fs (lit "config.js") = Ok (categories, functions)
      /\ count_newlines (print_analysis categories functions)
         = 6 + 2 * length (filter nonempty_bucket categories)
           + length functions.
Proof.
  split; [reflexivity|].
  apply report_size with (content := sample_content). reflexivity.
Defined.

(** ** Lines that are never matched *)

Lemma lstrip_match_starts (d : declaration) :
  starts_with (lit "async") (render (reindent [] d)) = true
  \/ starts_with (lit "function") (render (reindent [] d)) = true.
Proof.
  unfold starts_with, render, render_head, reindent.
  cbn [indent marker gap_name ident gap_paren params gap_brace trailer].
  destruct (marker d); cbn [app]; repeat rewrite <- app_assoc;
    rewrite strip_prefix_app; auto.
Qed.

(** X15.  A line is matched only if its first word is [async] or
    [function]: a declaration behind anything else, such as [export] or
    an assignment, is never extracted. *)
Theorem first_word_must_be_keyword (l : str) :
  starts_with (lit "async") (lstrip l) = false ->
  starts_with (lit "function") (lstrip l) = false ->
  re_match function_pattern l = None.
Proof.
  intros Ha Hf.
  destruct (re_match function_pattern l) as [m|] eqn:Hm; [|reflexivity].
  apply function_match_sound in Hm. destruct Hm as (d & Hwf & ->).
  rewrite lstrip_render in Ha, Hf by exact Hwf.
  destruct (lstrip_match_starts d); congruence.
Qed.

Lemma first_word_must_be_keyword_witness :
  starts_with (lit "async") (lstrip (lit "export function foo() {")) = false
  /\ starts_with (lit "function") (lstrip (lit "export function foo() {"))
     = false
  /\ re_match function_pattern (lit "export function foo() {") = None.
Proof.
  split; [reflexivity|]. split; [reflexivity|].
  apply (first_word_must_be_keyword (lit "export function foo() {"));
    reflexivity.
Defined.

(** X16.  The keyword [function] must be followed by whitespace: when
    anything else follows it directly, as in an anonymous function or a
    generator, the line is not matched. *)
Theorem function_keyword_needs_space (ws rest : str) (c : N) :
  forallb is_space ws = true ->
  is_space c = false ->
  re_match function_pattern (ws ++ lit "function" ++ c :: rest) = None.
Proof.
  intros Hws Hc.
  rewrite function_match_lstrip. rewrite lstrip_spaces by exact Hws.
  rewrite lstrip_fixed by reflexivity.
  destruct (re_match function_pattern _) as [m|] eqn:Hm; [|reflexivity].
  apply function_match_sound in Hm. destruct Hm as (d & Hwf & E).
  assert (E' := f_equal lstrip E).
  rewrite lstrip_fixed in E' by reflexivity.
  rewrite lstrip_render in E' by exact Hwf.
  unfold well_formed, well_formed_head in Hwf.
  repeat (apply andb_prop in Hwf; destruct Hwf as [Hwf ?]).
  unfold render, render_head, reindent in E'.
  cbn [indent marker gap_name ident gap_paren params gap_brace trailer] in E'.
  destruct (marker d); [discriminate E'|].
  cbn [app] in E'. repeat rewrite <- app_assoc in E'.
  apply app_inv_head in E'.
  destruct (gap_name d) as [|x g]; [discriminate|].
  inversion E'; subst x.
  match goal with Hg : forallb is_space (c :: g) = true |- _ =>
    simpl in Hg; rewrite Hc in Hg; discriminate Hg end.
Qed.

Lemma function_keyword_needs_space_witness :
  forallb is_space (lit "  ") = true
  /\ is_space 42%N = false
  /\ re_match function_pattern (lit "  " ++ lit "function" ++ 42%N :: lit " gen() {")
     = None.
Proof.
  split; [reflexivity|]. split; [reflexivity|].
  apply (function_keyword_needs_space (lit "  ") (lit " gen() {") 42%N);
    reflexivity.
Defined.
